(** * What-to-watch REST backend: user service, e-mail pattern and movie controller

    A shallow embedding of
      - [src/modules/user/user.entity.ts]      (class [UserEntity]),
      - the user service                       (class [UserService]),
      - the abstract controller                (class [Controller]),
      - [src/modules/movie/movie.controller.ts] (class [MovieController]),
    followed by the properties established about them.

    JavaScript strings are sequences of UTF-16 code units, [async] methods are
    computations over an explicit store that either return or throw, and the
    services injected through interfaces are records of operations. *)

From Stdlib Require Import List NArith Bool Arith Lia String Ascii.
Import ListNotations.

Set Implicit Arguments.

(* ================================================================== *)
(** * JavaScript strings *)
(* ================================================================== *)

(** A string is the list of its UTF-16 code units; [s.length] is the length of
    that list and [===] on strings is equality of the two lists. *)
Definition js_string : Type := list N.

Definition js_length (s : js_string) : nat := List.length s.

Fixpoint js_eqb (a b : js_string) : bool :=
  match a, b with
  | [], [] => true
  | x :: a', y :: b' => N.eqb x y && js_eqb a' b'
  | _, _ => false
  end.

(** A literal written with ASCII characters only. *)
Definition js (s : string) : js_string :=
  List.map N_of_ascii (list_ascii_of_string s).

(** ['Фильм не найден'] *)
Definition msg_movie_not_found : js_string :=
  [1060; 1080; 1083; 1100; 1084; 32; 1085; 1077; 32;
   1085; 1072; 1081; 1076; 1077; 1085]%N.

(** ['Комментарий не найден'] *)
Definition msg_comment_not_found : js_string :=
  [1050; 1086; 1084; 1084; 1077; 1085; 1090; 1072; 1088; 1080; 1081; 32;
   1085; 1077; 32; 1085; 1072; 1081; 1076; 1077; 1085]%N.

(** ['Длина пароля должна быть не менее 6 и не более 12 символов'] *)
Definition msg_password_length : js_string :=
  [1044; 1083; 1080; 1085; 1072; 32; 1087; 1072; 1088; 1086; 1083; 1103; 32;
   1076; 1086; 1083; 1078; 1085; 1072; 32; 1073; 1099; 1090; 1100; 32;
   1085; 1077; 32; 1084; 1077; 1085; 1077; 1077; 32; 54; 32; 1080; 32;
   1085; 1077; 32; 1073; 1086; 1083; 1077; 1077; 32; 49; 50; 32;
   1089; 1080; 1084; 1074; 1086; 1083; 1086; 1074]%N.

(** ['Создан пользователь: '] *)
Definition msg_user_created : js_string :=
  [1057; 1086; 1079; 1076; 1072; 1085; 32; 1087; 1086; 1083; 1100; 1079;
   1086; 1074; 1072; 1090; 1077; 1083; 1100; 58; 32]%N.

(* ================================================================== *)
(** * Exceptions and asynchronous computations *)
(* ================================================================== *)

(** [StatusCodes] of the http-status-codes package, as far as the controller
    and the error taxonomy use them. *)
Module StatusCodes.
Definition OK : N := 200.
Definition CREATED : N := 201.
Definition NO_CONTENT : N := 204.
Definition BAD_REQUEST : N := 400.
Definition UNAUTHORIZED : N := 401.
Definition NOT_FOUND : N := 404.
Definition INTERNAL_SERVER_ERROR : N := 500.
End StatusCodes.

(** What a [throw] carries: a plain [Error(message)], the application's
    [HttpError(httpStatusCode, message, detail)], or the [TypeError] raised by
    the runtime on a property read from [undefined]. *)
Inductive Exn : Type :=
| Error (message : js_string)
| HttpError (httpStatusCode : N) (message : js_string) (detail : js_string)
| TypeError.

(** The completion of a call: a returned value or a thrown exception. *)
Inductive Completion (A : Type) : Type :=
| Return (a : A)
| Throw (e : Exn).
Arguments Return {A} a.
Arguments Throw {A} e.

(** An [async] method over a store [S]: requests are handled one at a time, an
    [await] is the sequencing of two computations, and what was written to the
    store before a [throw] stays written. *)
Definition Async (S A : Type) : Type := S -> Completion A * S.

Definition ret {S A} (a : A) : Async S A := fun s => (Return a, s).

Definition throw {S A} (e : Exn) : Async S A := fun s => (Throw e, s).

Definition bind {S A B} (c : Async S A) (k : A -> Async S B) : Async S B :=
  fun s =>
    match c s with
    | (Return a, s') => k a s'
    | (Throw e, s') => (Throw e, s')
    end.

Definition lift {S A} (c : Completion A) : Async S A := fun s => (c, s).

Declare Scope async_scope.
Delimit Scope async_scope with async.
Notation "x <- c ;; k" := (bind c (fun x => k))
  (at level 61, c at next level, right associativity) : async_scope.
Notation "c ;;; k" := (bind c (fun _ => k))
  (at level 61, right associativity) : async_scope.
Local Open Scope async_scope.

(* ================================================================== *)
(** * Regular expressions of the schema's [match] options *)
(* ================================================================== *)

Module RegExp.

(** The fragment of the pattern language that the schema uses: character
    classes, concatenation, alternation, greedy quantifiers and the two
    assertions [^] and [$] (no flags). *)
Inductive t : Type :=
| Empty                                 (* the empty pattern *)
| Class (p : N -> bool)                 (* one code unit of a class *)
| Seq (r1 r2 : t)
| Alt (r1 r2 : t)
| Star (r : t)                          (* r* *)
| Bol                                   (* ^ *)
| Eol.                                  (* $ *)

Definition Plus (r : t) : t := Seq r (Star r).          (* r+ *)
Definition Opt (r : t) : t := Alt r Empty.              (* r? *)

(** [r{lo,lo+extra}] *)
Fixpoint Optional (extra : nat) (r : t) : t :=
  match extra with
  | O => Empty
  | S n => Opt (Seq r (Optional n r))
  end.

Fixpoint Times (lo : nat) (r : t) (rest : t) : t :=
  match lo with
  | O => rest
  | S n => Seq r (Times n r rest)
  end.

Definition Range (lo hi : nat) (r : t) : t := Times lo r (Optional (hi - lo) r).

(** A position in the input: how many code units lie before it, and the
    code units after it. *)
Definition position : Type := (nat * js_string)%type.

(** The backtracking matcher: [m r x k] tries the ways in which [r] matches
    at [x], in the order of preference of the language (left alternative
    first, one more iteration first), and asks the continuation [k] about the
    position each one ends at. An iteration of a starred pattern that
    consumes nothing is rejected, which also bounds the number of
    iterations by the input that is left. *)
Fixpoint m (r : t) (x : position) (k : position -> bool) {struct r} : bool :=
  match r with
  | Empty => k x
  | Class p =>
      match snd x with
      | c :: rest => p c && k (S (fst x), rest)
      | [] => false
      end
  | Seq r1 r2 => m r1 x (fun y => m r2 y k)
  | Alt r1 r2 => m r1 x k || m r2 x k
  | Star r1 =>
      (fix loop (fuel : nat) (x : position) {struct fuel} : bool :=
         match fuel with
         | O => k x
         | S fuel' =>
             m r1 x (fun y =>
                       if Nat.ltb (List.length (snd y)) (List.length (snd x))
                       then loop fuel' y else false)
             || k x
         end) (List.length (snd x)) x
  | Bol => match fst x with O => k x | S _ => false end
  | Eol => match snd x with [] => k x | _ :: _ => false end
  end.

(** [r] matches [s] starting at the position after the first [i] units. *)
Definition match_at (r : t) (s : js_string) (i : nat) : bool :=
  m r (i, skipn i s) (fun _ => true).

(** [RegExp.prototype.test]: some start index, tried from 0 upwards, has a
    match. *)
Definition test (r : t) (s : js_string) : bool :=
  existsb (match_at r s) (seq 0 (S (List.length s))).

(** Character classes. *)
Definition between (lo hi c : N) : bool := N.leb lo c && N.leb c hi.
Definition lit (a : ascii) (c : N) : bool := N.eqb c (N_of_ascii a).

(** [\w]: [A-Za-z0-9_] *)
Definition word (c : N) : bool :=
  between 97 122 c || between 65 90 c || between 48 57 c || lit "_" c.

Definition union (p q : N -> bool) (c : N) : bool := p c || q c.

(** [\s]: the white space and line terminator code units; [\S] is its
    complement. *)
Definition space (c : N) : bool :=
  between 9 13 c || lit " " c || N.eqb c 160 || N.eqb c 5760
  || between 8192 8202 c || N.eqb c 8232 || N.eqb c 8233 || N.eqb c 8239
  || N.eqb c 8287 || N.eqb c 12288 || N.eqb c 65279.

Definition nonspace (c : N) : bool := negb (space c).

(** The matches of a pattern as a relation: [matches r x y] when [r] can
    match from the position [x] up to the position [y]. An iteration of a
    starred pattern consumes at least one code unit. *)
Inductive matches : t -> position -> position -> Prop :=
| matches_Empty x : matches Empty x x
| matches_Class p i c rest :
    p c = true -> matches (Class p) (i, c :: rest) (S i, rest)
| matches_Seq r1 r2 x y z :
    matches r1 x y -> matches r2 y z -> matches (Seq r1 r2) x z
| matches_Alt_left r1 r2 x y : matches r1 x y -> matches (Alt r1 r2) x y
| matches_Alt_right r1 r2 x y : matches r2 x y -> matches (Alt r1 r2) x y
| matches_Star_stop r x : matches (Star r) x x
| matches_Star_more r x y z :
    matches r x y -> List.length (snd y) < List.length (snd x) ->
    matches (Star r) y z -> matches (Star r) x z
| matches_Bol rest : matches Bol (O, rest) (O, rest)
| matches_Eol i : matches Eol (i, []) (i, []).

(** Patterns without assertions, and the words they denote. *)
Fixpoint anchor_free (r : t) : bool :=
  match r with
  | Empty | Class _ => true
  | Seq r1 r2 | Alt r1 r2 => anchor_free r1 && anchor_free r2
  | Star r1 => anchor_free r1
  | Bol | Eol => false
  end.

Fixpoint lang (r : t) (w : js_string) {struct r} : Prop :=
  match r with
  | Empty => w = []
  | Class p => exists c, w = [c] /\ p c = true
  | Seq r1 r2 => exists u v, w = u ++ v /\ lang r1 u /\ lang r2 v
  | Alt r1 r2 => lang r1 w \/ lang r2 w
  | Star r1 => exists ws, w = List.concat ws /\ Forall (lang r1) ws
  | Bol | Eol => False
  end.

(** Labels, each followed by a dot, as in [([\w-]+\.)+]; a label is a
    non-empty word over a class. *)
Definition dotted (labels : list js_string) : js_string :=
  List.concat (List.map (fun l => l ++ js ".") labels).

Definition label_of (p : N -> bool) (l : js_string) : Prop :=
  l <> [] /\ forallb p l = true.

End RegExp.

(* ================================================================== *)
(** * The user entity *)
(* ================================================================== *)

(** The [User] type that the constructor of the entity reads; a
    [CreateUserDto] is passed where a [User] is expected. *)
Module User.
Record t : Type := {
  email : js_string;
  avatarUri : js_string;
  name : js_string;
  password : js_string
}.
End User.

Definition CreateUserDto : Type := User.t.

(** [LoginUserDto], by the two fields that [verifyUser] reads. *)
Module LoginUserDto.
Record t : Type := {
  email : js_string;
  password : js_string
}.
End LoginUserDto.

Module UserEntity.
Import RegExp.

Record t : Type := {
  email : js_string;
  avatarUri : js_string;
  name : js_string;
  password : js_string
}.

(** [constructor(data: User)] *)
Definition new (data : User.t) : t :=
  {| email := User.email data;
     avatarUri := User.avatarUri data;
     name := User.name data;
     password := User.password data |}.

(** The [match] option of the [email] property:
    [/^([\w-\\.]+@([\w-]+\.)+[\w-]{2,4})?$/].
    In a class, [\w-\\] is the union of [\w], [-] and the backslash. *)
Definition email_local : N -> bool :=
  union word (union (lit "-") (union (lit "\") (lit "."))).

Definition email_label : N -> bool := union word (lit "-").

Definition email_group : RegExp.t :=
  Seq (Plus (Class email_local))
    (Seq (Class (lit "@"))
       (Seq (Plus (Seq (Plus (Class email_label)) (Class (lit "."))))
          (Range 2 4 (Class email_label)))).

Definition email_match : RegExp.t := Seq Bol (Seq (Opt email_group) Eol).

(** The [match] option of the [avatarUri] property: [/^\S+\.jpg$/]. *)
Definition avatarUri_name : RegExp.t :=
  Seq (Plus (Class nonspace))
    (Seq (Class (lit "."))
       (Seq (Class (lit "j")) (Seq (Class (lit "p")) (Class (lit "g"))))).

Definition avatarUri_match : RegExp.t := Seq Bol (Seq avatarUri_name Eol).

Section Methods.
(** [createSHA256(line, salt)] of [utils/common.js]. *)
Variable createSHA256 : js_string -> js_string -> js_string.

(** [setPassword(password, salt)]: the object after the assignment, or
    the error thrown. *)
Definition setPassword (this : t) (password0 salt : js_string)
  : Completion t :=
  if Nat.ltb (js_length password0) 6 || Nat.ltb 12 (js_length password0)
  then Throw (Error msg_password_length)
  else Return {| email := email this;
                 avatarUri := avatarUri this;
                 name := name this;
                 password := createSHA256 password0 salt |}.

Definition getPassword (this : t) : js_string := password this.

(** [verifyPassword(password, salt)] *)
Definition verifyPassword (this : t) (password0 salt : js_string) : bool :=
  let hashPassword := createSHA256 password0 salt in
  js_eqb hashPassword (password this).
End Methods.
End UserEntity.

(* ================================================================== *)
(** * The user collection and the user service *)
(* ================================================================== *)

Module UserService.

(** A stored user, [DocumentType<UserEntity>]: the entity's properties under
    the [_id] that the collection gave it. The time stamps that the base
    class maintains are read by nothing here and are left out. *)
Record UserDocument : Type := {
  _id : N;
  entity : UserEntity.t
}.

(** The calls that reach the persistence layer ([this.userModel]). *)
Inductive ModelCall : Type :=
| CallCreate (user : UserEntity.t)
| CallFindOne (email : js_string).

Record World : Type := {
  users : list UserDocument;      (* the 'users' collection, oldest first *)
  next_id : N;                    (* the [_id] of the next document *)
  calls : list ModelCall;         (* the calls made on [userModel], oldest first *)
  log : list js_string            (* the lines given to [logger.info] *)
}.

Definition called (c : ModelCall) (w : World) : World :=
  {| users := users w; next_id := next_id w;
     calls := calls w ++ [c]; log := log w |}.

Definition has_email (email : js_string) (d : UserDocument) : bool :=
  js_eqb (UserEntity.email (entity d)) email.

(** [userModel.findOne({email})]: the first document of the collection
    whose [email] is the given one, or [null]. *)
Definition userModel_findOne (email : js_string)
  : Async World (option UserDocument) :=
  fun w => (Return (find (has_email email) (users w)),
            called (CallFindOne email) w).

(** [logger.info(line)] *)
Definition logger_info (line : js_string) : Async World unit :=
  fun w => (Return tt,
            {| users := users w; next_id := next_id w;
               calls := calls w; log := log w ++ [line] |}).

Section Service.
(** [createSHA256(line, salt)] of [utils/common.js]. *)
Variable createSHA256 : js_string -> js_string -> js_string.

(** What the object-document mapper does with a new document before it
    inserts it (schema validators, unique index): [None] when the
    document is accepted, the error it throws otherwise. *)
Variable rejects : UserEntity.t -> list UserDocument -> option Exn.

(** [userModel.create(user)] *)
Definition userModel_create (user : UserEntity.t)
  : Async World UserDocument :=
  fun w =>
    let w1 := called (CallCreate user) w in
    match rejects user (users w) with
    | Some e => (Throw e, w1)
    | None =>
        let d := {| _id := next_id w; entity := user |} in
        (Return d,
         {| users := users w1 ++ [d]; next_id := N.succ (next_id w1);
            calls := calls w1; log := log w1 |})
    end.

(** [create(dto, salt)] *)
Definition create (dto : CreateUserDto) (salt : js_string)
  : Async World UserDocument :=
  let user := UserEntity.new dto in
  user <- lift (UserEntity.setPassword createSHA256 user
                  (User.password dto) salt) ;;
  result <- userModel_create user ;;
  logger_info (msg_user_created ++ UserEntity.email user) ;;;
  ret result.

(** [findByEmail(email)] *)
Definition findByEmail (email : js_string)
  : Async World (option UserDocument) :=
  userModel_findOne email.

(** [findOrCreate(dto, salt)] *)
Definition findOrCreate (dto : CreateUserDto) (salt : js_string)
  : Async World UserDocument :=
  existedUser <- findByEmail (User.email dto) ;;
  match existedUser with
  | Some existedUser => ret existedUser
  | None => create dto salt
  end.

(** [verifyUser(dto, salt)] *)
Definition verifyUser (dto : LoginUserDto.t) (salt : js_string)
  : Async World (option UserDocument) :=
  user <- findByEmail (LoginUserDto.email dto) ;;
  match user with
  | None => ret None
  | Some user =>
      if negb (UserEntity.verifyPassword createSHA256 (entity user)
                 (LoginUserDto.password dto) salt)
      then ret None
      else ret (Some user)
  end.

(** The calls that a client can make on the service, and the world after
    one call and after a sequence of calls, whether they return or throw. *)
Inductive Operation : Type :=
| Create (dto : CreateUserDto) (salt : js_string)
| FindByEmail (email : js_string)
| FindOrCreate (dto : CreateUserDto) (salt : js_string)
| VerifyUser (dto : LoginUserDto.t) (salt : js_string).

Definition after (op : Operation) (w : World) : World :=
  match op with
  | Create dto salt => snd (create dto salt w)
  | FindByEmail email => snd (findByEmail email w)
  | FindOrCreate dto salt => snd (findOrCreate dto salt w)
  | VerifyUser dto salt => snd (verifyUser dto salt w)
  end.

Definition after_all (ops : list Operation) (w : World) : World :=
  fold_left (fun w op => after op w) ops w.

Definition is_create (op : Operation) : bool :=
  match op with
  | Create _ _ => true
  | _ => false
  end.

(** The credentials with which a registered user logs in. *)
Definition login_of (dto : CreateUserDto) : LoginUserDto.t :=
  {| LoginUserDto.email := User.email dto;
     LoginUserDto.password := User.password dto |}.
End Service.

(** A world in which nothing has happened yet. *)
Definition fresh : World :=
  {| users := []; next_id := 0; calls := []; log := [] |}.
End UserService.

(* ================================================================== *)
(** * Requests, responses and the abstract controller *)
(* ================================================================== *)

(** [HttpMethod], by the members that the route table uses; a member's value
    is the name of the router method that [addRoute] calls. *)
Inductive HttpMethod : Type := Get | Post | Put | Delete.

Definition HttpMethod_eqb (a b : HttpMethod) : bool :=
  match a, b with
  | Get, Get | Post, Post | Put, Put | Delete, Delete => true
  | _, _ => false
  end.

(** [method.toUpperCase()] *)
Definition toUpperCase (method : HttpMethod) : js_string :=
  match method with
  | Get => js "GET"
  | Post => js "POST"
  | Put => js "PUT"
  | Delete => js "DELETE"
  end.

(** ['Добавлен обработчик запросов: '] *)
Definition msg_route_added : js_string :=
  [1044; 1086; 1073; 1072; 1074; 1083; 1077; 1085; 32; 1086; 1073; 1088;
   1072; 1073; 1086; 1090; 1095; 1080; 1082; 32; 1079; 1072; 1087; 1088;
   1086; 1089; 1086; 1074; 58; 32]%N.

(** ['Регистрация эндпоинтов для MovieController…'] *)
Definition msg_registration : js_string :=
  [1056; 1077; 1075; 1080; 1089; 1090; 1088; 1072; 1094; 1080; 1103; 32;
   1101; 1085; 1076; 1087; 1086; 1080; 1085; 1090; 1086; 1074; 32;
   1076; 1083; 1103; 32; 77; 111; 118; 105; 101; 67; 111; 110; 116; 114;
   111; 108; 108; 101; 114; 8230]%N.

Section Http.
(** The database behind the services. *)
Variable Store : Type.
(** Plain objects: stored documents, request bodies, response shapes. *)
Variable Doc : Type.

(** The parts of a request that middlewares and handlers read. *)
Record Request : Type := {
  params_id : js_string;               (* req.params.id *)
  query_genre : option js_string;      (* req.query.genre *)
  query_limit : option N;              (* req.query.limit *)
  authorization : option js_string;    (* the bearer credential, if sent *)
  body : Doc;                          (* req.body *)
  user : option js_string              (* req.user, by its [id] *)
}.

Definition with_user (req : Request) (id : js_string) : Request :=
  {| params_id := params_id req; query_genre := query_genre req;
     query_limit := query_limit req; authorization := authorization req;
     body := body req; user := Some id |}.

Inductive Payload : Type :=
| One (data : Doc)
| Many (data : list Doc).

(** A response as the controller writes it. *)
Record Response : Type := {
  type : option js_string;       (* res.type(...) *)
  status : N;                    (* res.status(...) *)
  sent : option Payload          (* res.json(data), or nothing for send() *)
}.

(** [send(res, statusCode, data)] *)
Definition send (statusCode : N) (data : Payload) : Response :=
  {| type := Some (js "application/json"); status := statusCode;
     sent := Some data |}.

(** [created(res, data)] *)
Definition created (data : Payload) : Response :=
  send StatusCodes.CREATED data.

(** [noContent(res)] *)
Definition noContent : Response :=
  {| type := None; status := StatusCodes.NO_CONTENT; sent := None |}.

(** [ok(res, data)] *)
Definition ok (data : Payload) : Response := send StatusCodes.OK data.

(** A handler bound to its controller: it writes a response or throws. *)
Definition Handler : Type := Request -> Async Store Response.

(** What [execute(req, res, next)] of a middleware comes to: it calls
    [next()], possibly after extending the request, or it ends the chain
    with an error response of some status. *)
Inductive MiddlewareResult : Type :=
| Next (req : Request)
| Terminate (statusCode : N).

Record MiddlewareInterface : Type := {
  execute : Request -> Store -> MiddlewareResult
}.

Record RouteInterface (This : Type) : Type := {
  path : js_string;
  method : HttpMethod;
  handler : This -> Handler;
  middlewares : option (list MiddlewareInterface)
}.

(** The functions that the router holds for a path, in calling order. *)
Inductive Step : Type :=
| MiddlewareStep (middleware : MiddlewareInterface)
| HandlerStep (routeHandler : Handler).

Record Layer : Type := {
  layer_method : HttpMethod;
  layer_path : js_string;
  stack : list Step
}.

(** The state of a [Controller]: its router and the lines it logged. *)
Record Controller : Type := {
  _router : list Layer;
  logged : list js_string
}.

Definition Controller_new : Controller := {| _router := []; logged := [] |}.

Definition logger_info (line : js_string) (c : Controller) : Controller :=
  {| _router := _router c; logged := logged c ++ [line] |}.

(** [addRoute(route)] on the controller [this] *)
Definition addRoute {This : Type} (this : This) (route : RouteInterface This)
    (c : Controller) : Controller :=
  let routeHandler := HandlerStep (handler route this) in
  let middlewares := option_map (List.map MiddlewareStep) (middlewares route) in
  let c :=
    match middlewares with
    | Some middlewares =>
        {| _router := _router c ++
                        [{| layer_method := method route;
                            layer_path := path route;
                            stack := middlewares ++ [routeHandler] |}];
           logged := logged c |}
    | None =>
        {| _router := _router c ++
                        [{| layer_method := method route;
                            layer_path := path route;
                            stack := [routeHandler] |}];
           logged := logged c |}
    end in
  logger_info (msg_route_added ++ toUpperCase (method route) ++ js " "
                 ++ path route) c.

(** How the processing of a request ends. *)
Inductive Outcome : Type :=
| Sent (res : Response)        (* the handler wrote the response *)
| Raised (e : Exn)             (* the handler threw *)
| Stopped (statusCode : N)     (* a middleware ended the chain *)
| Unhandled.                   (* no function of the router took the request *)

(** The router calls the functions of a layer in order: a middleware that
    calls [next()] hands the request on, anything else ends the chain. *)
Fixpoint run (stack : list Step) (req : Request) (st : Store)
  : Outcome * Store :=
  match stack with
  | [] => (Unhandled, st)
  | MiddlewareStep middleware :: rest =>
      match execute middleware req st with
      | Next req' => run rest req' st
      | Terminate statusCode => (Stopped statusCode, st)
      end
  | HandlerStep routeHandler :: _ =>
      match routeHandler req st with
      | (Return res, st') => (Sent res, st')
      | (Throw e, st') => (Raised e, st')
      end
  end.

(** A request addressed to the route registered under a method and a path
    pattern goes through the first layer registered for them. *)
Definition dispatch (c : Controller) (method0 : HttpMethod)
    (path0 : js_string) (req : Request) (st : Store) : Outcome * Store :=
  match find (fun l => HttpMethod_eqb (layer_method l) method0
                       && js_eqb (layer_path l) path0) (_router c) with
  | Some l => run (stack l) req st
  | None => (Unhandled, st)
  end.

(* ---------------------------------------------------------------- *)
(** ** Middlewares *)
(* ---------------------------------------------------------------- *)

(** The classes given to [ValidateDtoMiddleware]. *)
Inductive DtoClass : Type :=
| CreateCommentDto
| CreateMovieDto
| UpdateMovieDto
| AddToToWatchDto
| DeleteFromToWatchDto.

(** Whether a string has the shape of an object id. *)
Variable isValidObjectId : js_string -> bool.
(** Whether a body satisfies the declared constraints of a DTO class. *)
Variable satisfies : DtoClass -> Doc -> bool.
(** Decoding of a bearer credential: the id of the user it was issued to,
    or nothing when it is not a valid credential. *)
Variable decode : js_string -> option js_string.

(** Modelled from the spec: [ValidateObjectIdMiddleware]
    (common/middlewares/validate-objectid.middleware.js) is missing. It
    "rejects malformed identifiers before any lookup"; a validation error
    is answered with HTTP 400. The only path parameter is [id]. *)
Definition ValidateObjectIdMiddleware (param : js_string)
  : MiddlewareInterface :=
  {| execute := fun req _ =>
       if isValidObjectId (params_id req) then Next req
       else Terminate StatusCodes.BAD_REQUEST |}.

(** Modelled from the spec: [ValidateDtoMiddleware]
    (common/middlewares/validate-dto.middleware.js) is missing. It "applies
    declarative field constraints to the parsed request body" and on a
    violation responds with the list of violations, HTTP 400. *)
Definition ValidateDtoMiddleware (dto : DtoClass) : MiddlewareInterface :=
  {| execute := fun req _ =>
       if satisfies dto (body req) then Next req
       else Terminate StatusCodes.BAD_REQUEST |}.

(** Modelled from the spec: [DocumentExistsMiddleware]
    (common/middlewares/document-exists.middleware.js) is missing. It
    "issues a lookup for a referenced document (movie) and fails with
    Not-Found if absent"; the lookup is the [exists] of the service it is
    given. *)
Definition DocumentExistsMiddleware (service_exists : js_string -> Store -> bool)
    (entityName paramName : js_string) : MiddlewareInterface :=
  {| execute := fun req st =>
       if service_exists (params_id req) st then Next req
       else Terminate StatusCodes.NOT_FOUND |}.

(** Modelled from the spec: [AuthorizeMiddleware]
    (common/middlewares/authorize.middleware.js) is missing. It "requires
    and decodes a bearer credential before allowing the handler to run";
    an authorization error is answered with HTTP 401. The decoded user is
    what the handlers read as [req.user]. *)
Definition AuthorizeMiddleware : MiddlewareInterface :=
  {| execute := fun req _ =>
       match authorization req with
       | Some credential =>
           match decode credential with
           | Some id => Next (with_user req id)
           | None => Terminate StatusCodes.UNAUTHORIZED
           end
       | None => Terminate StatusCodes.UNAUTHORIZED
       end |}.

(** Modelled from the spec: the exception filter is missing. Errors
    "propagate up to a single top-level handler"; an [HttpError] is
    answered with its own status code, any other error with HTTP 500. *)
Definition filter_status (e : Exn) : N :=
  match e with
  | HttpError httpStatusCode _ _ => httpStatusCode
  | Error _ | TypeError => StatusCodes.INTERNAL_SERVER_ERROR
  end.

(** The status code of the response that the client gets. *)
Definition response_status (o : Outcome) : option N :=
  match o with
  | Sent res => Some (status res)
  | Raised e => Some (filter_status e)
  | Stopped statusCode => Some statusCode
  | Unhandled => None
  end.

(* ---------------------------------------------------------------- *)
(** ** The services that the movie controller is given *)
(* ---------------------------------------------------------------- *)

(** The interfaces, by the methods that the controller calls. A lookup
    reads the store; a method that changes documents also returns the new
    store. An absent document is [None] ([null]). *)
Record MovieServiceInterface : Type := {
  movie_findByGenre : js_string -> option N -> Store -> list Doc;
  movie_getAll : option N -> Store -> list Doc;
  movie_findById : js_string -> Store -> option Doc;
  movie_create : js_string -> Doc -> Store -> Doc * Store;
  movie_update : js_string -> js_string -> Doc -> Store -> option Doc * Store;
  movie_deleteById : js_string -> Store -> Store;
  movie_exists : js_string -> Store -> bool
}.

Record CommentServiceInterface : Type := {
  comment_findByMovieId : js_string -> Store -> list Doc;
  comment_create : js_string -> js_string -> Doc -> Store -> option Doc * Store
}.

(** The to-watch document of a user, by the property that is read. *)
Record ToWatch : Type := { list_ : list Doc }.   (* [list] *)

Record ToWatchServiceInterface : Type := {
  getToWatch : js_string -> Store -> option ToWatch;
  addToToWatch : js_string -> js_string -> Store -> Store;
  deleteFromToWatch : js_string -> js_string -> Store -> Store
}.

Record ConfigInterface : Type := {
  config_get : js_string -> js_string
}.

(** The response classes given to [fillDto]. *)
Inductive ResponseClass : Type :=
| MovieListItemResponse
| MovieResponse
| CommentResponse.

(** The outward-facing shape of a plain object for a response class. *)
Variable expose : ResponseClass -> Doc -> Doc.
(** [{...x, rating: x.rating}] and [{...x, rating: 0}] *)
Variable with_rating : Doc -> Doc.
Variable with_rating_0 : Doc -> Doc.
(** [body.movieId] *)
Variable movieId : Doc -> js_string.

(** Modelled from the spec: [fillDto] (utils/common.js) is missing. The
    response mappers are "projections from internal entities to
    outward-facing response shapes"; an array is mapped element by
    element. *)
Definition fillDto (someDto : ResponseClass) (plainObject : Payload)
  : Payload :=
  match plainObject with
  | One data => One (expose someDto data)
  | Many data => Many (List.map (expose someDto) data)
  end.

Definition reads {A} (f : Store -> A) : Async Store A :=
  fun st => (Return (f st), st).

Definition writes {A} (f : Store -> A * Store) : Async Store A :=
  fun st => let (a, st') := f st in (Return a, st').

Definition updates (f : Store -> Store) : Async Store unit :=
  fun st => (Return tt, f st).

(** [req.user.id]: a [TypeError] when no middleware has set [req.user]. *)
Definition req_user_id (req : Request) : Async Store js_string :=
  match user req with
  | Some id => ret id
  | None => throw TypeError
  end.

(* ---------------------------------------------------------------- *)
(** ** The movie controller *)
(* ---------------------------------------------------------------- *)

Record MovieController : Type := {
  movieService : MovieServiceInterface;
  commentService : CommentServiceInterface;
  toWatchService : ToWatchServiceInterface;
  configService : ConfigInterface   (* the argument given to [super] *)
}.

(** [this.configService]: the constructor of [Controller] keeps the logger
    only, and the constructor of [MovieController] takes [configService] as
    a plain parameter that it hands to [super]; the property is therefore
    [undefined] on the controller. *)
Definition this_configService (this : MovieController)
  : option ConfigInterface := None.

Definition movie_not_found : Exn :=
  HttpError StatusCodes.NOT_FOUND msg_movie_not_found (js "MovieController").

Definition comment_not_found : Exn :=
  HttpError StatusCodes.NOT_FOUND msg_comment_not_found (js "MovieController").

Definition getAll (this : MovieController) : Handler := fun req =>
  movies <-
    match query_genre req with
    | Some (c :: genre) =>
        reads (movie_findByGenre (movieService this) (c :: genre)
                 (query_limit req))
    | Some [] | None =>
        reads (movie_getAll (movieService this) (query_limit req))
    end ;;
  ret (ok (fillDto MovieListItemResponse (Many movies))).

Definition getById (this : MovieController) : Handler := fun req =>
  movie <- reads (movie_findById (movieService this) (params_id req)) ;;
  match movie with
  | None => throw movie_not_found
  | Some movie => ret (ok (fillDto MovieResponse (One (with_rating movie))))
  end.

(** [this.configService.get(...)] is a property read on [undefined], which
    throws a [TypeError] before the service is reached. *)
Definition getPromo (this : MovieController) : Handler := fun _req =>
  match this_configService this with
  | None => throw TypeError
  | Some configService0 =>
      movie <- reads (movie_findById (movieService this)
                        (config_get configService0 (js "PROMO_MOVIE_ID"))) ;;
      match movie with
      | None => throw movie_not_found
      | Some movie =>
          ret (ok (fillDto MovieResponse (One (with_rating movie))))
      end
  end.

Definition create (this : MovieController) : Handler := fun req =>
  id <- req_user_id req ;;
  result <- writes (movie_create (movieService this) id (body req)) ;;
  ret (created (fillDto MovieResponse (One (with_rating_0 result)))).

Definition update (this : MovieController) : Handler := fun req =>
  id <- req_user_id req ;;
  result <- writes (movie_update (movieService this) (params_id req) id
                      (body req)) ;;
  match result with
  | None => throw movie_not_found
  | Some result =>
      ret (created (fillDto MovieResponse (One (with_rating result))))
  end.

Definition deleteById (this : MovieController) : Handler := fun req =>
  updates (movie_deleteById (movieService this) (params_id req)) ;;;
  ret noContent.

Definition getToWatchList (this : MovieController) : Handler := fun req =>
  id <- req_user_id req ;;
  result <- reads (getToWatch (toWatchService this) id) ;;
  ret (ok (fillDto MovieListItemResponse
             (Many match result with
                   | Some result => list_ result
                   | None => []
                   end))).

Definition addToToWatchList (this : MovieController) : Handler := fun req =>
  found <- reads (movie_exists (movieService this) (movieId (body req))) ;;
  if (found : bool) then throw movie_not_found
  else
    id <- req_user_id req ;;
    updates (addToToWatch (toWatchService this) id (movieId (body req))) ;;;
    ret noContent.

Definition deleteFromToWatchList (this : MovieController) : Handler :=
  fun req =>
  found <- reads (movie_exists (movieService this) (movieId (body req))) ;;
  if (found : bool) then throw movie_not_found
  else
    id <- req_user_id req ;;
    updates (deleteFromToWatch (toWatchService this) id
               (movieId (body req))) ;;;
    ret noContent.

Definition getComments (this : MovieController) : Handler := fun req =>
  comments <- reads (comment_findByMovieId (commentService this)
                       (params_id req)) ;;
  ret (ok (fillDto CommentResponse (Many comments))).

Definition createComment (this : MovieController) : Handler := fun req =>
  id <- req_user_id req ;;
  comment <- writes (comment_create (commentService this) (params_id req) id
                       (body req)) ;;
  match comment with
  | None => throw comment_not_found
  | Some comment => ret (created (fillDto CommentResponse (One comment)))
  end.

(** The route table of the constructor, in the order of registration. *)
Definition routes (movieService0 : MovieServiceInterface)
  : list (RouteInterface MovieController) :=
  let validateObjectIdMiddleware := ValidateObjectIdMiddleware (js "id") in
  let validateCommentDtoMiddleware := ValidateDtoMiddleware CreateCommentDto in
  let validateCreateMovieDtoMiddleware := ValidateDtoMiddleware CreateMovieDto in
  let validateUpdateMovieDtoMiddleware := ValidateDtoMiddleware UpdateMovieDto in
  let validateAddToToWatchDtoMiddleware :=
    ValidateDtoMiddleware AddToToWatchDto in
  let validateDeleteFromToWatchDtoMiddleware :=
    ValidateDtoMiddleware DeleteFromToWatchDto in
  let movieExistsMiddleware :=
    DocumentExistsMiddleware (movie_exists movieService0) (js "Movie")
      (js "id") in
  let authorizationMiddleware := AuthorizeMiddleware in
  [ {| path := js "/"; method := Get; handler := getAll;
       middlewares := None |};
    {| path := js "/"; method := Post; handler := create;
       middlewares := Some [authorizationMiddleware;
                            validateCreateMovieDtoMiddleware] |};
    {| path := js "/promo"; method := Get; handler := getPromo;
       middlewares := None |};
    {| path := js "/to-watch"; method := Get; handler := getToWatchList;
       middlewares := Some [authorizationMiddleware] |};
    {| path := js "/to-watch"; method := Post; handler := addToToWatchList;
       middlewares := Some [authorizationMiddleware;
                            validateAddToToWatchDtoMiddleware] |};
    {| path := js "/to-watch"; method := Delete;
       handler := deleteFromToWatchList;
       middlewares := Some [authorizationMiddleware;
                            validateDeleteFromToWatchDtoMiddleware] |};
    {| path := js "/:id/comments"; method := Get; handler := getComments;
       middlewares := Some [validateObjectIdMiddleware;
                            movieExistsMiddleware] |};
    {| path := js "/:id/comments"; method := Post; handler := createComment;
       middlewares := Some [authorizationMiddleware;
                            validateObjectIdMiddleware;
                            validateCommentDtoMiddleware;
                            movieExistsMiddleware] |};
    {| path := js "/:id"; method := Get; handler := getById;
       middlewares := Some [validateObjectIdMiddleware;
                            movieExistsMiddleware] |};
    {| path := js "/:id"; method := Put; handler := update;
       middlewares := Some [authorizationMiddleware;
                            validateObjectIdMiddleware;
                            validateUpdateMovieDtoMiddleware;
                            movieExistsMiddleware] |};
    {| path := js "/:id"; method := Delete; handler := deleteById;
       middlewares := Some [authorizationMiddleware;
                            validateObjectIdMiddleware;
                            movieExistsMiddleware] |} ].

(** The constructor: the controller state after the registration of the
    routes of [this]. *)
Definition MovieController_router (this : MovieController) : Controller :=
  fold_left (fun c route => addRoute this route c)
    (routes (movieService this))
    (logger_info msg_registration Controller_new).

(** The processing of one request by the controller. *)
Definition serve (this : MovieController) (method0 : HttpMethod)
    (path0 : js_string) (req : Request) (st : Store) : Outcome * Store :=
  dispatch (MovieController_router this) method0 path0 req st.

(** A request to one of the two routes that change a to-watch list. *)
Inductive ToWatchOperation : Type :=
| AddOperation (req : Request)         (* POST /to-watch *)
| DeleteOperation (req : Request).     (* DELETE /to-watch *)

Definition perform (this : MovieController) (op : ToWatchOperation)
    (st : Store) : Store :=
  match op with
  | AddOperation req => snd (serve this Post (js "/to-watch") req st)
  | DeleteOperation req => snd (serve this Delete (js "/to-watch") req st)
  end.

Definition perform_all (this : MovieController)
    (ops : list ToWatchOperation) (st : Store) : Store :=
  fold_left (fun st op => perform this op st) ops st.
End Http.

Arguments Raised {Doc} e.
Arguments Stopped {Doc} statusCode.
Arguments Unhandled {Doc}.
Arguments noContent {Doc}.
Arguments Terminate {Doc} statusCode.

(* ================================================================== *)
(** * The services over an explicit document store *)
(* ================================================================== *)

(** The sources of the movie, comment and to-watch services are missing.
    This module gives them over a store of three collections, so that the
    controller can be run on concrete requests. *)
Module Reference.

(** A plain object with string-valued properties. *)
Definition Plain : Type := list (js_string * js_string).

Fixpoint prop (key : js_string) (o : Plain) : js_string :=
  match o with
  | [] => []
  | (k, v) :: rest => if js_eqb k key then v else prop key rest
  end.

Definition assign (key value : js_string) (o : Plain) : Plain :=
  (key, value) :: filter (fun kv => negb (js_eqb (fst kv) key)) o.

Record Store : Type := {
  movies : list (js_string * Plain);             (* _id, document *)
  comments : list (js_string * Plain);           (* movie id, document *)
  toWatch : list (js_string * list js_string);   (* user id, list *)
  next_id : N
}.

Definition hex_digit (d : N) : N :=
  if N.ltb d 10 then 48 + d else 87 + d.

Fixpoint hex (digits : nat) (n : N) : js_string :=
  match digits with
  | O => []
  | S k => hex k (n / 16) ++ [hex_digit (n mod 16)]
  end.

Definition is_hex_digit (c : N) : bool :=
  RegExp.between 48 57 c || RegExp.between 97 102 c || RegExp.between 65 70 c.

Definition isValidObjectId (s : js_string) : bool :=
  Nat.eqb (js_length s) 24 && forallb is_hex_digit s.

Definition has_id (id : js_string) (d : js_string * Plain) : bool :=
  js_eqb (fst d) id.

Definition limited (limit : option N) (l : list Plain) : list Plain :=
  match limit with
  | Some n => firstn (N.to_nat n) l
  | None => l
  end.

(** Modelled from the spec: the movie service is missing. It "exposes
    create/find-by-id/find-by-collection/update/delete operations over its
    entity's store, plus entity-specific helpers (genre filter with
    limit)", and signals a document that is not found by [null]. *)
Definition MovieService : MovieServiceInterface Store Plain :=
  {| movie_findByGenre := fun genre limit st =>
       limited limit
         (filter (fun d => js_eqb (prop (js "genre") d) genre)
            (List.map snd (movies st)));
     movie_getAll := fun limit st => limited limit (List.map snd (movies st));
     movie_findById := fun id st =>
       option_map snd (find (has_id id) (movies st));
     movie_create := fun userId dto st =>
       let d := assign (js "userId") userId dto in
       (d, {| movies := movies st ++ [(hex 24 (next_id st), d)];
              comments := comments st; toWatch := toWatch st;
              next_id := N.succ (next_id st) |});
     movie_update := fun id userId dto st =>
       match find (has_id id) (movies st) with
       | Some _ =>
           let d := assign (js "userId") userId dto in
           (Some d,
            {| movies := List.map (fun m => if has_id id m then (fst m, d) else m)
                           (movies st);
               comments := comments st; toWatch := toWatch st;
               next_id := next_id st |})
       | None => (None, st)
       end;
     movie_deleteById := fun id st =>
       {| movies := filter (fun m => negb (has_id id m)) (movies st);
          comments := comments st; toWatch := toWatch st;
          next_id := next_id st |};
     movie_exists := fun id st => existsb (has_id id) (movies st) |}.

(** Modelled from the spec: the comment service is missing. A comment is
    "created attached to an existing movie and user; read by movie id". *)
Definition CommentService : CommentServiceInterface Store Plain :=
  {| comment_findByMovieId := fun id st =>
       List.map snd (filter (has_id id) (comments st));
     comment_create := fun movieId userId dto st =>
       let d := assign (js "userId") userId dto in
       (Some d,
        {| movies := movies st; comments := comments st ++ [(movieId, d)];
           toWatch := toWatch st; next_id := next_id st |}) |}.

(** Adding to the list of a user: the list is a set, so an id that is in it
    is not added again; a user without a document gets one. *)
Fixpoint add_entry (userId movieId : js_string)
    (c : list (js_string * list js_string)) : list (js_string * list js_string) :=
  match c with
  | [] => [(userId, [movieId])]
  | (u, l) :: rest =>
      if js_eqb u userId
      then (u, if existsb (js_eqb movieId) l then l else l ++ [movieId]) :: rest
      else (u, l) :: add_entry userId movieId rest
  end.

Fixpoint remove_entry (userId movieId : js_string)
    (c : list (js_string * list js_string)) : list (js_string * list js_string) :=
  match c with
  | [] => []
  | (u, l) :: rest =>
      if js_eqb u userId
      then (u, filter (fun x => negb (js_eqb x movieId)) l) :: rest
      else (u, l) :: remove_entry userId movieId rest
  end.

Definition with_toWatch (c : list (js_string * list js_string)) (st : Store)
  : Store :=
  {| movies := movies st; comments := comments st; toWatch := c;
     next_id := next_id st |}.

(** Modelled from the spec: the to-watch service is missing. The list is a
    "per-user ordered/unordered set of movie references", with the
    invariant that "a movie id may appear at most once per user's list";
    reading it gives the movies that the references point to. *)
Definition ToWatchService : ToWatchServiceInterface Store Plain :=
  {| getToWatch := fun userId st =>
       option_map
         (fun d => {| list_ :=
                        flat_map (fun id =>
                                    match find (has_id id) (movies st) with
                                    | Some m => [snd m]
                                    | None => []
                                    end) (snd d) |})
         (find (fun d => js_eqb (fst d) userId) (toWatch st));
     addToToWatch := fun userId movieId st =>
       with_toWatch (add_entry userId movieId (toWatch st)) st;
     deleteFromToWatch := fun userId movieId st =>
       with_toWatch (remove_entry userId movieId (toWatch st)) st |}.

Definition ConfigService : ConfigInterface :=
  {| config_get := fun _ => hex 24 0 |}.

(** Stand-ins, on plain objects with string properties, for the helpers of
    [utils/common.js] and for the checks of the middlewares, whose sources
    are missing. The properties of the controller hold for every choice of
    them; these are the ones that the runs on sample data use. *)
Definition expose (c : ResponseClass) (o : Plain) : Plain := o.
Definition with_rating (o : Plain) : Plain :=
  assign (js "rating") (prop (js "rating") o) o.
Definition with_rating_0 (o : Plain) : Plain := assign (js "rating") (js "0") o.
Definition movieId (o : Plain) : js_string := prop (js "movieId") o.

Definition satisfies (c : DtoClass) (o : Plain) : bool :=
  match c with
  | AddToToWatchDto | DeleteFromToWatchDto => isValidObjectId (movieId o)
  | CreateCommentDto => negb (js_eqb (prop (js "text") o) [])
  | CreateMovieDto | UpdateMovieDto => negb (js_eqb (prop (js "title") o) [])
  end.

(** A credential is the text [Bearer ] followed by the id of a user. *)
Definition decode (credential : js_string) : option js_string :=
  if js_eqb (firstn 7 credential) (js "Bearer ")
  then match skipn 7 credential with
       | [] => None
       | id => Some id
       end
  else None.

(** A controller that is given the to-watch service above, whatever the
    other services are. *)
Definition controller_of (movies0 : MovieServiceInterface Store Plain)
    (comments0 : CommentServiceInterface Store Plain)
    (config0 : ConfigInterface) : MovieController Store Plain :=
  {| movieService := movies0;
     commentService := comments0;
     toWatchService := ToWatchService;
     configService := config0 |}.

Definition controller : MovieController Store Plain :=
  controller_of MovieService CommentService ConfigService.

Definition js_eq_dec (a b : js_string) : {a = b} + {a <> b} :=
  list_eq_dec N.eq_dec a b.

(** The invariant of the to-watch collection: no list repeats a movie id,
    and no user has two documents. *)
Definition well_formed (c : list (js_string * list js_string)) : Prop :=
  Forall (fun d => NoDup (snd d)) c /\ NoDup (List.map fst c).

(** How often a movie id occurs in a list. *)
Definition occurrences (movieId0 : js_string) (l : list js_string) : nat :=
  count_occ js_eq_dec l movieId0.

(** The controller on a request: [serve] with the helpers above. *)
Definition handle (method0 : HttpMethod) (path0 : js_string)
    (req : Request Plain) (st : Store) : Outcome Plain * Store :=
  serve isValidObjectId satisfies decode expose with_rating with_rating_0
    movieId controller method0 path0 req st.

Definition empty : Store :=
  {| movies := []; comments := []; toWatch := []; next_id := 0 |}.
End Reference.

(* ================================================================== *)
(** * Sample data *)
(* ================================================================== *)

(** Concrete users, movies and requests on which the definitions are run. *)
Module Samples.
Import Reference.

(** A stand-in for the hash function: 64 hexadecimal digits computed from
    the salt and the line. *)
Definition digest (line salt : js_string) : js_string :=
  hex 64 (fold_left (fun a c => (a * 31 + c) mod 2 ^ 256)%N (salt ++ line) 7%N).

(** A collection with a unique index on [email]. *)
Definition unique_email (user : UserEntity.t)
    (users : list UserService.UserDocument) : option Exn :=
  if existsb (UserService.has_email (UserEntity.email user)) users
  then Some (Error (js "E11000 duplicate key error"))
  else None.

Definition salt : js_string := js "secret".

Definition keks : CreateUserDto :=
  {| User.email := js "keks@academy.ru"; User.avatarUri := js "keks.jpg";
     User.name := js "Keks"; User.password := js "qwerty12" |}.

Definition keks_short : CreateUserDto :=
  {| User.email := js "keks@academy.ru"; User.avatarUri := js "keks.jpg";
     User.name := js "Keks"; User.password := js "12345" |}.

Definition keks_login : LoginUserDto.t :=
  {| LoginUserDto.email := js "keks@academy.ru";
     LoginUserDto.password := js "qwerty12" |}.

Definition nobody : UserService.World :=
  {| UserService.users := []; UserService.next_id := 0;
     UserService.calls := []; UserService.log := [] |}.

(** The document that the registration of [keks] stores, and the world
    after [findOrCreate] has registered him. *)
Definition keks_document : UserService.UserDocument :=
  {| UserService._id := 0;
     UserService.entity :=
       {| UserEntity.email := js "keks@academy.ru";
          UserEntity.avatarUri := js "keks.jpg";
          UserEntity.name := js "Keks";
          UserEntity.password := digest (js "qwerty12") salt |} |}.

Definition registered : UserService.World :=
  {| UserService.users := [keks_document];
     UserService.next_id := 1;
     UserService.calls :=
       [UserService.CallFindOne (js "keks@academy.ru");
        UserService.CallCreate (UserService.entity keks_document)];
     UserService.log := [msg_user_created ++ js "keks@academy.ru"] |}.

(** The id of a stored movie, and an id that no movie has. *)
Definition alien : js_string := hex 24 1.
Definition missing : js_string := hex 24 9.

Definition catalogue : Store :=
  {| movies := [(alien, [(js "title", js "Alien")])]; comments := [];
     toWatch := []; next_id := 2 |}.

Definition request (id : js_string) (credential : option js_string)
    (body0 : Plain) : Request Plain :=
  {| params_id := id; query_genre := None; query_limit := None;
     authorization := credential; body := body0; user := None |}.

Definition bearer_keks : option js_string := Some (js "Bearer keks").

(** A movie service whose [exists] still answers yes for a movie that
    [findById] no longer finds, as when the document is deleted between the
    two calls of one request. *)
Definition vanishing : MovieServiceInterface Store Plain :=
  {| movie_findByGenre := movie_findByGenre MovieService;
     movie_getAll := movie_getAll MovieService;
     movie_findById := fun _ _ => None;
     movie_create := movie_create MovieService;
     movie_update := movie_update MovieService;
     movie_deleteById := movie_deleteById MovieService;
     movie_exists := movie_exists MovieService |}.

(** A session on the user service: registration, login, and a second
    registration under the same e-mail. *)
Definition session : list UserService.Operation :=
  [UserService.FindOrCreate keks salt;
   UserService.VerifyUser keks_login salt;
   UserService.FindOrCreate keks_short (js "pepper")].

(** Requests on the stored movie, and the route of the promo movie as the
    constructor writes it. *)
Definition rename_alien : Request Plain :=
  request alien bearer_keks [(js "title", js "Aliens")].

Definition praise_alien : Request Plain :=
  request alien bearer_keks [(js "text", js "Nice")].

Definition promo_route : RouteInterface Store Plain (MovieController Store Plain) :=
  {| path := js "/promo"; method := Get;
     handler := getPromo expose with_rating; middlewares := None |}.
End Samples.

(* ================================================================== *)
(** * Properties *)
(* ================================================================== *)

(** ** Strings and lists *)

Lemma js_eqb_refl (a : js_string) : js_eqb a a = true.
Proof.
  induction a as [|x a IH]; simpl; [reflexivity|].
  now rewrite N.eqb_refl, IH.
Qed.

Lemma js_eqb_eq (a b : js_string) : js_eqb a b = true <-> a = b.
Proof.
  split; [|intros ->; apply js_eqb_refl].
  revert b; induction a as [|x a IH]; intros [|y b]; simpl; try discriminate.
  - reflexivity.
  - intros H. apply andb_true_iff in H as [Hx Hab].
    apply N.eqb_eq in Hx. apply IH in Hab. now subst.
Qed.

Lemma js_eqb_neq (a b : js_string) : js_eqb a b = false <-> a <> b.
Proof.
  rewrite <- js_eqb_eq. destruct (js_eqb a b); split; congruence.
Qed.

Lemma find_app_none {A} (f : A -> bool) (l : list A) (x : A) :
  find f l = None -> f x = true -> find f (l ++ [x]) = Some x.
Proof.
  induction l as [|y l IH]; simpl; intros Hl Hx.
  - now rewrite Hx.
  - destruct (f y); [discriminate|]. now apply IH.
Qed.

Lemma find_none_iff {A} (f : A -> bool) (l : list A) :
  find f l = None <-> forall x, In x l -> f x = false.
Proof.
  split; [apply find_none|].
  induction l as [|y l IH]; simpl; intros H; [reflexivity|].
  rewrite (H y (or_introl eq_refl)). apply IH. intros x Hx. apply H. now right.
Qed.

(** ** The e-mail pattern *)

(** A pattern of the form [^(g)?$] matches the empty string whatever the
    group [g] is: the empty alternative of the optional group is always
    there. *)
Lemma optional_group_matches_empty (g : RegExp.t) :
  RegExp.test (RegExp.Seq RegExp.Bol (RegExp.Seq (RegExp.Opt g) RegExp.Eol)) []
  = true.
Proof.
  unfold RegExp.test, RegExp.match_at. simpl.
  rewrite orb_false_r. apply orb_true_r.
Qed.

(** C10. The pattern of the [email] property accepts the empty string: the
    match of [/^([\w-\\.]+@([\w-]+\.)+[\w-]{2,4})?$/] against the empty
    string succeeds. *)
Theorem email_match_accepts_empty :
  RegExp.test UserEntity.email_match (js EmptyString) = true.
Proof.
  change (js EmptyString) with (@nil N).
  apply (optional_group_matches_empty UserEntity.email_group).
Qed.

(** The pattern does its work on non-empty inputs. *)
Example email_match_accepts_address :
  RegExp.test UserEntity.email_match (js "keks@academy.example.com") = true.
Proof. reflexivity. Qed.

Example email_match_rejects_missing_domain :
  RegExp.test UserEntity.email_match (js "keks@academy") = false.
Proof. reflexivity. Qed.

Example email_match_rejects_long_suffix :
  RegExp.test UserEntity.email_match (js "keks@academy.museum") = false.
Proof. reflexivity. Qed.

(** ** The user service *)

Section UserServiceProperties.
Import UserService.

Variable createSHA256 : js_string -> js_string -> js_string.
Variable rejects : UserEntity.t -> list UserDocument -> option Exn.

Local Abbreviation create := (UserService.create createSHA256 rejects).
Local Abbreviation findOrCreate :=
  (UserService.findOrCreate createSHA256 rejects).
Local Abbreviation verifyUser := (UserService.verifyUser createSHA256).

(** The two outcomes of [setPassword]. *)
Lemma setPassword_throws (this : UserEntity.t) (password salt : js_string) :
  js_length password < 6 \/ 12 < js_length password ->
  UserEntity.setPassword createSHA256 this password salt
  = Throw (Error msg_password_length).
Proof.
  intros H. unfold UserEntity.setPassword.
  assert (E : Nat.ltb (js_length password) 6 || Nat.ltb 12 (js_length password)
              = true).
  { apply orb_true_iff. destruct H; [left|right]; now apply Nat.ltb_lt. }
  now rewrite E.
Qed.

Lemma setPassword_returns (this this' : UserEntity.t)
    (password salt : js_string) :
  UserEntity.setPassword createSHA256 this password salt = Return this' ->
  6 <= js_length password <= 12 /\
  this' = {| UserEntity.email := UserEntity.email this;
             UserEntity.avatarUri := UserEntity.avatarUri this;
             UserEntity.name := UserEntity.name this;
             UserEntity.password := createSHA256 password salt |}.
Proof.
  unfold UserEntity.setPassword.
  destruct (Nat.ltb (js_length password) 6) eqn:E1;
    destruct (Nat.ltb 12 (js_length password)) eqn:E2; simpl;
    try discriminate.
  intros [= <-]. apply Nat.ltb_ge in E1, E2. split; [lia | reflexivity].
Qed.

(** What a returning [create] did. *)
Lemma create_returns (dto : CreateUserDto) (salt : js_string)
    (w w' : World) (d : UserDocument) :
  create dto salt w = (Return d, w') ->
  6 <= js_length (User.password dto) <= 12 /\
  entity d = {| UserEntity.email := User.email dto;
                UserEntity.avatarUri := User.avatarUri dto;
                UserEntity.name := User.name dto;
                UserEntity.password :=
                  createSHA256 (User.password dto) salt |} /\
  rejects (entity d) (users w) = None /\
  _id d = UserService.next_id w /\
  users w' = users w ++ [d] /\
  calls w' = calls w ++ [CallCreate (entity d)].
Proof.
  unfold UserService.create, bind, lift.
  destruct (UserEntity.setPassword createSHA256 (UserEntity.new dto)
              (User.password dto) salt) as [user|e] eqn:Eset;
    [|discriminate].
  apply setPassword_returns in Eset as [Hlen ->].
  unfold userModel_create.
  match goal with |- context [rejects ?u ?l] => destruct (rejects u l) eqn:Erej end;
    [discriminate|].
  unfold UserService.logger_info, ret. simpl. intros [= <- <-]. simpl.
  repeat split; try assumption; lia.
Qed.

(** C2. A create-user request whose password has fewer than 6 or more than
    12 characters makes [create] throw the password-length error; the world
    is left as it was: no call has reached the persistence layer and no
    user document has been stored. *)
Theorem create_short_or_long_password_throws
    (dto : CreateUserDto) (salt : js_string) (w : World) :
  js_length (User.password dto) < 6 \/ 12 < js_length (User.password dto) ->
  create dto salt w = (Throw (Error msg_password_length), w).
Proof.
  intros H. unfold UserService.create, bind, lift.
  now rewrite (setPassword_throws (UserEntity.new dto) _ salt H).
Qed.

(** C7. After a successful creation the stored document carries, as its
    password, the salted hash of the raw password; the password of the
    request reaches the store only through the hash function, and it is not
    the stored password as soon as a digest is longer than the 12 characters
    that a password may have. *)
Theorem create_stores_salted_hash
    (dto : CreateUserDto) (salt : js_string) (w w' : World)
    (d : UserDocument) :
  create dto salt w = (Return d, w') ->
  users w' = users w ++ [d] /\
  entity d = {| UserEntity.email := User.email dto;
                UserEntity.avatarUri := User.avatarUri dto;
                UserEntity.name := User.name dto;
                UserEntity.password :=
                  createSHA256 (User.password dto) salt |} /\
  UserEntity.getPassword (entity d) = createSHA256 (User.password dto) salt /\
  (12 < js_length (createSHA256 (User.password dto) salt) ->
   UserEntity.getPassword (entity d) <> User.password dto).
Proof.
  intros H. apply create_returns in H as (Hlen & He & _ & _ & Hu & _).
  repeat split; try assumption.
  - now rewrite He.
  - intros Hlong Heq. rewrite He in Heq. simpl in Heq.
    rewrite Heq in Hlong. lia.
Qed.

Lemma findOrCreate_unfold (dto : CreateUserDto) (salt : js_string) (w : World) :
  findOrCreate dto salt w =
  match find (has_email (User.email dto)) (users w) with
  | Some existedUser =>
      (Return existedUser, called (CallFindOne (User.email dto)) w)
  | None => create dto salt (called (CallFindOne (User.email dto)) w)
  end.
Proof.
  unfold UserService.findOrCreate, findByEmail, userModel_findOne, bind.
  now destruct (find (has_email (User.email dto)) (users w)).
Qed.

(** After a returning [findOrCreate] the returned user is the first
    document of the collection with the e-mail of the request. *)
Lemma findOrCreate_found (dto : CreateUserDto) (salt : js_string)
    (w w1 : World) (u : UserDocument) :
  findOrCreate dto salt w = (Return u, w1) ->
  find (has_email (User.email dto)) (users w1) = Some u.
Proof.
  rewrite findOrCreate_unfold.
  destruct (find (has_email (User.email dto)) (users w)) as [v|] eqn:Efind.
  - intros [= <- <-]. exact Efind.
  - intros H. apply create_returns in H as (_ & He & _ & _ & Hu & _).
    rewrite Hu. simpl. apply find_app_none; [exact Efind|].
    unfold has_email. rewrite He. simpl. apply js_eqb_refl.
Qed.

(** C3. [findOrCreate] is idempotent: once a call has returned a user, a
    second call with the same e-mail, whatever the rest of the DTO and the
    salt, returns that same stored user, leaves the collection as it is and
    reaches the persistence layer with its lookup only. *)
Theorem findOrCreate_idempotent
    (dto dto' : CreateUserDto) (salt salt' : js_string)
    (w w1 : World) (u : UserDocument) :
  findOrCreate dto salt w = (Return u, w1) ->
  User.email dto' = User.email dto ->
  In u (users w1) /\
  exists w2,
    findOrCreate dto' salt' w1 = (Return u, w2) /\
    users w2 = users w1 /\
    calls w2 = calls w1 ++ [CallFindOne (User.email dto)].
Proof.
  intros H Hemail. apply findOrCreate_found in H.
  split; [apply (find_some _ _ H)|].
  exists (called (CallFindOne (User.email dto)) w1).
  rewrite findOrCreate_unfold, Hemail, H. repeat split.
Qed.

(** A failing [findOrCreate] stores nothing, and fails again in the same
    way when it is repeated. *)
Lemma findOrCreate_failure_repeats
    (dto : CreateUserDto) (salt : js_string) (w w1 : World) (e : Exn) :
  findOrCreate dto salt w = (Throw e, w1) ->
  users w1 = users w /\
  exists w2, findOrCreate dto salt w1 = (Throw e, w2) /\ users w2 = users w.
Proof.
  rewrite findOrCreate_unfold.
  destruct (find (has_email (User.email dto)) (users w)) eqn:Efind;
    [discriminate|].
  unfold UserService.create, bind, lift.
  destruct (UserEntity.setPassword createSHA256 (UserEntity.new dto)
              (User.password dto) salt) as [user|e0] eqn:Eset.
  - unfold userModel_create. simpl.
    destruct (rejects user (users w)) as [e1|] eqn:Erej; [|discriminate].
    intros [= <- <-]. simpl. split; [reflexivity|].
    rewrite findOrCreate_unfold. simpl. rewrite Efind.
    unfold UserService.create, bind, lift. rewrite Eset.
    unfold userModel_create. simpl. rewrite Erej.
    eexists. split; reflexivity.
  - intros [= <- <-]. simpl. split; [reflexivity|].
    rewrite findOrCreate_unfold. simpl. rewrite Efind.
    unfold UserService.create, bind, lift. rewrite Eset.
    eexists. split; reflexivity.
Qed.

(** C6. [verifyUser] returns [null] exactly when no user with the e-mail
    exists or the salted hash of the supplied password differs from the
    stored hash of the user found for the e-mail; otherwise it returns that
    stored user. *)
Theorem verifyUser_null_iff (dto : LoginUserDto.t) (salt : js_string)
    (w : World) :
  (fst (verifyUser dto salt w) = Return None <->
     (forall d, In d (users w) ->
                UserEntity.email (entity d) <> LoginUserDto.email dto)
     \/ (exists u,
           find (has_email (LoginUserDto.email dto)) (users w) = Some u /\
           createSHA256 (LoginUserDto.password dto) salt
           <> UserEntity.getPassword (entity u)))
  /\ (forall u,
        find (has_email (LoginUserDto.email dto)) (users w) = Some u ->
        createSHA256 (LoginUserDto.password dto) salt
        = UserEntity.getPassword (entity u) ->
        fst (verifyUser dto salt w) = Return (Some u)).
Proof.
  unfold UserService.verifyUser, findByEmail, userModel_findOne, bind,
    UserEntity.verifyPassword, UserEntity.getPassword.
  destruct (find (has_email (LoginUserDto.email dto)) (users w)) as [u|] eqn:Efind;
    simpl.
  - destruct (js_eqb (createSHA256 (LoginUserDto.password dto) salt)
                (UserEntity.password (entity u))) eqn:Ehash; simpl.
    + apply js_eqb_eq in Ehash. split.
      * split; [discriminate|]. intros [Hnone | (v & [= <-] & Hneq)].
        -- apply find_some in Efind as [Hin Hmail].
           apply js_eqb_eq in Hmail. now apply Hnone in Hin.
        -- contradiction.
      * now intros v [= <-] _.
    + apply js_eqb_neq in Ehash. split.
      * split; [|reflexivity]. intros _. right. now exists u.
      * intros v [= <-] Heq. contradiction.
  - split.
    + split; [|reflexivity]. intros _. left. intros d Hin.
      apply (proj1 (find_none_iff _ _) Efind) in Hin.
      now apply js_eqb_neq in Hin.
    + discriminate.
Qed.
End UserServiceProperties.

(** ** The movie controller *)

Section MovieControllerProperties.
Variables Store Doc : Type.
Variable isValidObjectId : js_string -> bool.
Variable satisfies : DtoClass -> Doc -> bool.
Variable decode : js_string -> option js_string.
Variable expose : ResponseClass -> Doc -> Doc.
Variables with_rating with_rating_0 : Doc -> Doc.
Variable movieId : Doc -> js_string.

Local Abbreviation route :=
  (@serve Store Doc isValidObjectId satisfies decode expose with_rating
     with_rating_0 movieId).
Local Abbreviation authorize := (@AuthorizeMiddleware Store Doc decode).
Local Abbreviation validateId :=
  (@ValidateObjectIdMiddleware Store Doc isValidObjectId (js "id")).
Local Abbreviation validateDto := (@ValidateDtoMiddleware Store Doc satisfies).
Local Abbreviation movieExists this :=
  (@DocumentExistsMiddleware Store Doc (movie_exists (movieService this))
     (js "Movie") (js "id")).

Implicit Types (this : MovieController Store Doc) (req : Request Doc)
  (st : Store).

(** The chains that the constructor registers for the routes below. *)
Lemma route_get_id this req st :
  route this Get (js "/:id") req st
  = run [MiddlewareStep validateId; MiddlewareStep (movieExists this);
         HandlerStep (getById expose with_rating this)] req st.
Proof. reflexivity. Qed.

Lemma route_post_comments this req st :
  route this Post (js "/:id/comments") req st
  = run [MiddlewareStep authorize; MiddlewareStep validateId;
         MiddlewareStep (validateDto CreateCommentDto);
         MiddlewareStep (movieExists this);
         HandlerStep (createComment expose this)] req st.
Proof. reflexivity. Qed.

Lemma route_get_to_watch this req st :
  route this Get (js "/to-watch") req st
  = run [MiddlewareStep authorize;
         HandlerStep (getToWatchList expose this)] req st.
Proof. reflexivity. Qed.

Lemma route_post_to_watch this req st :
  route this Post (js "/to-watch") req st
  = run [MiddlewareStep authorize;
         MiddlewareStep (validateDto AddToToWatchDto);
         HandlerStep (addToToWatchList movieId this)] req st.
Proof. reflexivity. Qed.

Lemma route_delete_to_watch this req st :
  route this Delete (js "/to-watch") req st
  = run [MiddlewareStep authorize;
         MiddlewareStep (validateDto DeleteFromToWatchDto);
         HandlerStep (deleteFromToWatchList movieId this)] req st.
Proof. reflexivity. Qed.

(** What the two to-watch handlers do, case by case. *)
Lemma addToToWatchList_cases this req st :
  addToToWatchList movieId this req st =
  if movie_exists (movieService this) (movieId (body req)) st
  then (Throw movie_not_found, st)
  else match user req with
       | Some id =>
           (Return noContent,
            addToToWatch (toWatchService this) id (movieId (body req)) st)
       | None => (Throw TypeError, st)
       end.
Proof.
  unfold addToToWatchList, bind, reads, updates, req_user_id, ret, throw.
  destruct (movie_exists _ _ st); [reflexivity|].
  now destruct (user req).
Qed.

Lemma deleteFromToWatchList_cases this req st :
  deleteFromToWatchList movieId this req st =
  if movie_exists (movieService this) (movieId (body req)) st
  then (Throw movie_not_found, st)
  else match user req with
       | Some id =>
           (Return noContent,
            deleteFromToWatch (toWatchService this) id (movieId (body req)) st)
       | None => (Throw TypeError, st)
       end.
Proof.
  unfold deleteFromToWatchList, bind, reads, updates, req_user_id, ret, throw.
  destruct (movie_exists _ _ st); [reflexivity|].
  now destruct (user req).
Qed.

(** On the route [GET /:id] a request for a movie that the existence
    middleware does not find never reaches the handler. *)
Lemma route_get_id_stopped this req st :
  isValidObjectId (params_id req) = true ->
  movie_exists (movieService this) (params_id req) st = false ->
  route this Get (js "/:id") req st = (Stopped StatusCodes.NOT_FOUND, st).
Proof.
  intros Hid Hex. rewrite route_get_id. simpl. now rewrite Hid, Hex.
Qed.

(** C5, as amended. For a GET request to [/:id] with a well-formed id for
    which [findById] returns [null], the store is left as it is and the
    response is a 404: that of the existence middleware, which ends the
    chain before [getById] runs, when the middleware finds no movie with the
    id; and the typed [HttpError] with status 404 and component name
    "MovieController" that [getById] throws, when the middleware has let the
    request through. *)
Theorem get_id_null_outcome this req st :
  isValidObjectId (params_id req) = true ->
  movie_findById (movieService this) (params_id req) st = None ->
  route this Get (js "/:id") req st
  = (if movie_exists (movieService this) (params_id req) st
     then Raised (HttpError 404 msg_movie_not_found (js "MovieController"))
     else Stopped 404%N, st)
  /\ getById expose with_rating this req st
     = (Throw (HttpError 404 msg_movie_not_found (js "MovieController")), st).
Proof.
  intros Hid Hnull.
  assert (Hh : getById expose with_rating this req st
               = (Throw (HttpError 404 msg_movie_not_found
                           (js "MovieController")), st)).
  { unfold getById, bind, reads. now rewrite Hnull. }
  split; [|exact Hh].
  rewrite route_get_id. simpl. rewrite Hid.
  destruct (movie_exists (movieService this) (params_id req) st);
    [now rewrite Hh | reflexivity].
Qed.

(** C8, as amended. For a POST request to [/:id/comments] whose movie id
    refers to no existing movie, a middleware ends the chain before
    [createComment] runs, so that the store is left as it is and no comment
    is persisted. The response is that of the first middleware of the route
    that rejects the request: 401 without a credential that decodes, else
    400 for a malformed id, else 400 for a body that violates the DTO, else
    the 404 of the existence check. *)
Theorem createComment_absent_movie_outcome this req st :
  movie_exists (movieService this) (params_id req) st = false ->
  route this Post (js "/:id/comments") req st =
  (Stopped
     match authorization req with
     | None => 401%N
     | Some credential =>
         match decode credential with
         | None => 401%N
         | Some _ =>
             if isValidObjectId (params_id req)
             then if satisfies CreateCommentDto (body req)
                  then 404%N
                  else 400%N
             else 400%N
         end
     end, st).
Proof.
  intros Hex. rewrite route_post_comments. simpl.
  destruct (authorization req) as [credential|]; [|reflexivity].
  destruct (decode credential) as [id|]; [|reflexivity]. simpl.
  destruct (isValidObjectId (params_id req)); [|reflexivity]. simpl.
  destruct (satisfies CreateCommentDto (body req)); [|reflexivity]. simpl.
  now rewrite Hex.
Qed.

(** C9. An authorized GET request to [/to-watch] of a user for whom the
    to-watch service has no document gets the response 200 with an empty
    list, and the store is left as it is. *)
Theorem getToWatchList_null_empty_list this req st
    (credential id : js_string) :
  authorization req = Some credential ->
  decode credential = Some id ->
  getToWatch (toWatchService this) id st = None ->
  route this Get (js "/to-watch") req st
  = (Sent {| type := Some (js "application/json");
             status := 200;
             sent := Some (Many []) |}, st).
Proof.
  intros Hauth Hdec Hnull. rewrite route_get_to_watch. simpl.
  rewrite Hauth, Hdec. simpl.
  unfold getToWatchList, bind, req_user_id, reads, ret. simpl.
  now rewrite Hnull.
Qed.
End MovieControllerProperties.

(** ** The to-watch lists *)

Section ToWatchLists.
Import Reference.

Variable isValidObjectId : js_string -> bool.
Variable satisfies : DtoClass -> Plain -> bool.
Variable decode : js_string -> option js_string.
Variable expose : ResponseClass -> Plain -> Plain.
Variables with_rating with_rating_0 : Plain -> Plain.
Variable movieId : Plain -> js_string.
Variable movies0 : MovieServiceInterface Store Plain.
Variable comments0 : CommentServiceInterface Store Plain.
Variable config0 : ConfigInterface.

Local Abbreviation this := (controller_of movies0 comments0 config0).
Local Abbreviation step :=
  (@perform Store Plain isValidObjectId satisfies decode expose with_rating
     with_rating_0 movieId this).
Local Abbreviation steps :=
  (@perform_all Store Plain isValidObjectId satisfies decode expose
     with_rating with_rating_0 movieId this).

Lemma existsb_js_eqb_false (x : js_string) (l : list js_string) :
  existsb (js_eqb x) l = false -> ~ In x l.
Proof.
  intros H Hin.
  assert (E : existsb (js_eqb x) l = true).
  { apply existsb_exists. exists x. split; [exact Hin | apply js_eqb_refl]. }
  congruence.
Qed.

Lemma NoDup_snoc (x : js_string) (l : list js_string) :
  NoDup l -> ~ In x l -> NoDup (l ++ [x]).
Proof.
  intros Hl Hx. apply NoDup_app; [exact Hl | repeat constructor; intros [] |].
  intros y Hy [<-|[]]. contradiction.
Qed.

Lemma add_entry_keys (userId movie k : js_string)
    (c : list (js_string * list js_string)) :
  In k (List.map fst (add_entry userId movie c)) ->
  k = userId \/ In k (List.map fst c).
Proof.
  induction c as [|[u l] c IH]; simpl.
  - intros [<-|[]]. now left.
  - destruct (js_eqb u userId); simpl.
    + intros H. now right.
    + intros [<-|H]; [right; now left|].
      destruct (IH H) as [->|Hin]; [now left | right; now right].
Qed.

Lemma add_entry_well_formed (userId movie : js_string)
    (c : list (js_string * list js_string)) :
  well_formed c -> well_formed (add_entry userId movie c).
Proof.
  unfold well_formed. induction c as [|[u l] c IH]; simpl; intros [Hl Hk].
  - split; repeat constructor; intros [].
  - inversion Hl as [|? ? Hd Hrest]; subst. simpl in Hd.
    inversion Hk as [|? ? Hu Hkeys]; subst.
    destruct (js_eqb u userId) eqn:E; simpl.
    + split; [|now constructor].
      constructor; [simpl|exact Hrest].
      destruct (existsb (js_eqb movie) l) eqn:Ein; [exact Hd|].
      apply NoDup_snoc; [exact Hd | now apply existsb_js_eqb_false].
    + destruct (IH (conj Hrest Hkeys)) as [Hl' Hk'].
      split; constructor; try assumption.
      intros Hin. apply add_entry_keys in Hin as [->|Hin]; [|contradiction].
      now rewrite js_eqb_refl in E.
Qed.

Lemma remove_entry_keys (userId movie : js_string)
    (c : list (js_string * list js_string)) :
  List.map fst (remove_entry userId movie c) = List.map fst c.
Proof.
  induction c as [|[u l] c IH]; simpl; [reflexivity|].
  destruct (js_eqb u userId); simpl; [reflexivity | now rewrite IH].
Qed.

Lemma remove_entry_well_formed (userId movie : js_string)
    (c : list (js_string * list js_string)) :
  well_formed c -> well_formed (remove_entry userId movie c).
Proof.
  unfold well_formed. intros [Hl Hk]. rewrite remove_entry_keys.
  split; [|exact Hk]. clear Hk.
  induction Hl as [|[u l] c Hd Hrest IH]; simpl; [constructor|].
  destruct (js_eqb u userId); constructor; try assumption.
  simpl in *. now apply NoDup_filter.
Qed.

(** A request to one of the two routes leaves the collection as it is, or
    changes it by one step of the service. *)
Lemma perform_toWatch (op : ToWatchOperation Plain) (st : Store) :
  toWatch (step op st) = toWatch st
  \/ (exists userId movie,
        toWatch (step op st) = add_entry userId movie (toWatch st))
  \/ (exists userId movie,
        toWatch (step op st) = remove_entry userId movie (toWatch st)).
Proof.
  destruct op as [req|req]; unfold perform.
  - rewrite route_post_to_watch. simpl.
    destruct (authorization req) as [credential|]; [|now left].
    destruct (decode credential) as [id|]; [|now left]. simpl.
    destruct (satisfies AddToToWatchDto (body req)); [|now left]. simpl.
    rewrite addToToWatchList_cases. simpl.
    destruct (movie_exists movies0 (movieId (body req)) st); [now left|].
    right; left. now exists id, (movieId (body req)).
  - rewrite route_delete_to_watch. simpl.
    destruct (authorization req) as [credential|]; [|now left].
    destruct (decode credential) as [id|]; [|now left]. simpl.
    destruct (satisfies DeleteFromToWatchDto (body req)); [|now left]. simpl.
    rewrite deleteFromToWatchList_cases. simpl.
    destruct (movie_exists movies0 (movieId (body req)) st); [now left|].
    right; right. now exists id, (movieId (body req)).
Qed.

Lemma perform_well_formed (op : ToWatchOperation Plain) (st : Store) :
  well_formed (toWatch st) -> well_formed (toWatch (step op st)).
Proof.
  intros H.
  destruct (perform_toWatch op st) as [-> | [(u & m & ->) | (u & m & ->)]].
  - exact H.
  - now apply add_entry_well_formed.
  - now apply remove_entry_well_formed.
Qed.

Lemma perform_all_well_formed (ops : list (ToWatchOperation Plain))
    (st : Store) :
  well_formed (toWatch st) -> well_formed (toWatch (steps ops st)).
Proof.
  revert st. induction ops as [|op ops IH]; intros st H; [exact H|].
  simpl. apply IH. now apply perform_well_formed.
Qed.

(** C4. Whatever sequence of add-to-to-watch and delete-from-to-watch
    requests the controller has processed on a store whose to-watch
    collection started empty, every to-watch document holds each movie id
    at most once, and no user has more than one document. *)
Theorem toWatch_list_without_duplicates
    (ops : list (ToWatchOperation Plain)) (st : Store) :
  Forall (fun d => forall movie, occurrences movie (snd d) <= 1)
    (toWatch (steps ops (with_toWatch [] st)))
  /\ NoDup (List.map fst (toWatch (steps ops (with_toWatch [] st)))).
Proof.
  assert (H : well_formed (toWatch (steps ops (with_toWatch [] st)))).
  { apply perform_all_well_formed. split; constructor. }
  destruct H as [Hl Hk]. split; [|exact Hk].
  eapply Forall_impl; [|exact Hl].
  intros d Hd movie. unfold occurrences.
  now apply (proj1 (NoDup_count_occ js_eq_dec (snd d))).
Qed.
End ToWatchLists.

(** ** Runs on the sample data *)

Section Runs.
Import Reference Samples.

(** C1. The guard of the two to-watch handlers at work: for the stored
    movie, POST and DELETE [/to-watch] of an authorized user throw the
    Not-Found error and leave the store as it is; for an id that no movie
    has, both reach the service and answer 204 No Content, and the POST
    puts the id on the list. *)
Theorem toWatch_guard_on_samples :
  movie_exists MovieService alien catalogue = true
  /\ handle Post (js "/to-watch")
       (request [] bearer_keks [(js "movieId", alien)]) catalogue
     = (Raised (HttpError 404 msg_movie_not_found (js "MovieController")),
        catalogue)
  /\ handle Delete (js "/to-watch")
       (request [] bearer_keks [(js "movieId", alien)]) catalogue
     = (Raised (HttpError 404 msg_movie_not_found (js "MovieController")),
        catalogue)
  /\ movie_exists MovieService missing catalogue = false
  /\ handle Post (js "/to-watch")
       (request [] bearer_keks [(js "movieId", missing)]) catalogue
     = (Sent noContent, with_toWatch [(js "keks", [missing])] catalogue)
  /\ handle Delete (js "/to-watch")
       (request [] bearer_keks [(js "movieId", missing)]) catalogue
     = (Sent noContent, catalogue).
Proof. repeat split; reflexivity. Qed.

(** The user service on the registration of [keks]. *)
Lemma create_short_or_long_password_throws_witness :
  (js_length (User.password keks_short) < 6
   \/ 12 < js_length (User.password keks_short))
  /\ UserService.create digest unique_email keks_short salt nobody
     = (Throw (Error msg_password_length), nobody).
Proof.
  assert (H : js_length (User.password keks_short) < 6
              \/ 12 < js_length (User.password keks_short)).
  { left. vm_compute. lia. }
  split; [exact H|].
  apply (create_short_or_long_password_throws digest unique_email
           keks_short salt nobody H).
Defined.

Lemma create_stores_salted_hash_witness :
  UserService.create digest unique_email keks salt nobody
  = (Return keks_document,
     snd (UserService.create digest unique_email keks salt nobody))
  /\ UserEntity.getPassword (UserService.entity keks_document)
     = digest (User.password keks) salt
  /\ UserEntity.getPassword (UserService.entity keks_document)
     <> User.password keks.
Proof.
  split; [reflexivity|].
  destruct (create_stores_salted_hash digest unique_email keks salt nobody
              (w' := snd (UserService.create digest unique_email keks salt
                            nobody))
              (d := keks_document) eq_refl)
    as (_ & _ & Hhash & Hraw).
  split; [exact Hhash|]. apply Hraw. vm_compute. lia.
Defined.

Lemma findOrCreate_idempotent_witness :
  UserService.findOrCreate digest unique_email keks salt nobody
  = (Return keks_document, registered)
  /\ User.email keks_short = User.email keks
  /\ In keks_document (UserService.users registered)
  /\ exists w2,
       UserService.findOrCreate digest unique_email keks_short (js "pepper")
         registered
       = (Return keks_document, w2)
       /\ UserService.users w2 = UserService.users registered
       /\ UserService.calls w2
          = UserService.calls registered
            ++ [UserService.CallFindOne (User.email keks)].
Proof.
  split; [reflexivity|]. split; [reflexivity|].
  apply (findOrCreate_idempotent digest unique_email keks keks_short salt
           (js "pepper") nobody (w1 := registered) (u := keks_document));
    reflexivity.
Defined.

Lemma verifyUser_null_iff_witness :
  find (UserService.has_email (LoginUserDto.email keks_login))
    (UserService.users registered) = Some keks_document
  /\ fst (UserService.verifyUser digest keks_login salt registered)
     = Return (Some keks_document).
Proof.
  split; [reflexivity|].
  apply (proj2 (verifyUser_null_iff digest keks_login salt registered));
    reflexivity.
Defined.

(** The movie controller on requests for the id that no movie has, and
    for a movie that vanishes between the existence check and the lookup. *)
Lemma get_id_null_outcome_witness :
  (isValidObjectId (params_id (request missing None [])) = true
   /\ movie_findById MovieService (params_id (request missing None []))
        catalogue = None
   /\ handle Get (js "/:id") (request missing None []) catalogue
      = (Stopped 404%N, catalogue))
  /\ (isValidObjectId (params_id (request alien None [])) = true
      /\ movie_findById vanishing (params_id (request alien None []))
           catalogue = None
      /\ serve isValidObjectId satisfies decode expose with_rating
           with_rating_0 movieId
           (controller_of vanishing CommentService ConfigService)
           Get (js "/:id") (request alien None []) catalogue
         = (Raised (HttpError 404 msg_movie_not_found (js "MovieController")),
            catalogue)).
Proof.
  split.
  - split; [reflexivity|]. split; [reflexivity|].
    exact (proj1 (get_id_null_outcome isValidObjectId satisfies decode expose
                    with_rating with_rating_0 movieId controller
                    (request missing None []) catalogue eq_refl eq_refl)).
  - split; [reflexivity|]. split; [reflexivity|].
    exact (proj1 (get_id_null_outcome isValidObjectId satisfies decode expose
                    with_rating with_rating_0 movieId
                    (controller_of vanishing CommentService ConfigService)
                    (request alien None []) catalogue eq_refl eq_refl)).
Defined.

Lemma createComment_absent_movie_outcome_witness :
  movie_exists MovieService
    (params_id (request missing bearer_keks [(js "text", js "Nice")]))
    catalogue = false
  /\ handle Post (js "/:id/comments")
       (request missing bearer_keks [(js "text", js "Nice")]) catalogue
     = (Stopped 404%N, catalogue)
  /\ handle Post (js "/:id/comments")
       (request (js "no-id") bearer_keks [(js "text", js "Nice")]) catalogue
     = (Stopped 400%N, catalogue).
Proof.
  split; [reflexivity|]. split.
  - exact (createComment_absent_movie_outcome isValidObjectId satisfies
             decode expose with_rating with_rating_0 movieId controller
             (request missing bearer_keks [(js "text", js "Nice")])
             catalogue eq_refl).
  - exact (createComment_absent_movie_outcome isValidObjectId satisfies
             decode expose with_rating with_rating_0 movieId controller
             (request (js "no-id") bearer_keks [(js "text", js "Nice")])
             catalogue eq_refl).
Defined.

Lemma getToWatchList_null_empty_list_witness :
  authorization (request [] bearer_keks []) = Some (js "Bearer keks")
  /\ decode (js "Bearer keks") = Some (js "keks")
  /\ getToWatch ToWatchService (js "keks") catalogue = None
  /\ handle Get (js "/to-watch") (request [] bearer_keks []) catalogue
     = (Sent {| type := Some (js "application/json");
                status := 200;
                sent := Some (Many []) |}, catalogue).
Proof.
  split; [reflexivity|]. split; [reflexivity|]. split; [reflexivity|].
  apply (getToWatchList_null_empty_list isValidObjectId satisfies decode
           expose with_rating with_rating_0 movieId controller
           (request [] bearer_keks []) catalogue
           (credential := js "Bearer keks") (id := js "keks"));
    reflexivity.
Defined.

(** C5, as stated, fails on the route: for the id that no movie has,
    [findById] returns [null] and the id is well formed, but the response is
    the 404 with which the existence middleware ends the chain, not the
    [HttpError] of the controller, which is thrown by a handler that does
    not run. *)
Lemma get_id_absent_movie_stopped_by_middleware :
  isValidObjectId (params_id (request missing None [])) = true
  /\ movie_findById MovieService (params_id (request missing None []))
       catalogue = None
  /\ handle Get (js "/:id") (request missing None []) catalogue
     = (Stopped 404%N, catalogue)
  /\ ~ (forall (req : Request Plain) (st : Store),
          isValidObjectId (params_id req) = true ->
          movie_findById MovieService (params_id req) st = None ->
          exists message,
            fst (handle Get (js "/:id") req st)
            = Raised (HttpError 404 message (js "MovieController"))).
Proof.
  split; [reflexivity|]. split; [reflexivity|]. split; [reflexivity|].
  intros H.
  destruct (H (request missing None []) catalogue eq_refl eq_refl)
    as (message & E).
  discriminate E.
Qed.

(** C8, as stated, fails: a request without a credential for the id that
    no movie has is answered 401 by the authorization middleware, which the
    route calls before the existence check. *)
Lemma createComment_absent_movie_unauthorized :
  movie_exists MovieService missing catalogue = false
  /\ handle Post (js "/:id/comments")
       (request missing None [(js "text", js "Nice")]) catalogue
     = (Stopped 401%N, catalogue)
  /\ ~ (forall (req : Request Plain) (st : Store),
          movie_exists MovieService (params_id req) st = false ->
          response_status (fst (handle Post (js "/:id/comments") req st))
          = Some 404%N).
Proof.
  split; [reflexivity|]. split; [reflexivity|].
  intros H.
  specialize (H (request missing None [(js "text", js "Nice")]) catalogue
                eq_refl).
  discriminate H.
Qed.
End Runs.

(* ================================================================== *)
(** * Further properties *)
(* ================================================================== *)

(** ** The matcher and the patterns of the user entity *)

Section Matcher.
Import RegExp.

Local Ltac arith := unfold position, js_string in *; simpl in *; lia.

(** The backtracking matcher finds exactly the matches of the relation. *)
Lemma m_matches (r : t) :
  forall (x : position) (k : position -> bool),
    m r x k = true <-> exists y, matches r x y /\ k y = true.
Proof.
  induction r as [|p|r1 IH1 r2 IH2|r1 IH1 r2 IH2|r1 IH1| |]; intros x k.
  - simpl. split.
    + intros H. exists x. split; [constructor | exact H].
    + intros (y & H & K). now inversion H; subst.
  - destruct x as [i [|c rest]]; simpl.
    + split; [discriminate|]. intros (y & H & _). inversion H.
    + rewrite andb_true_iff. split.
      * intros [Hp K]. exists (S i, rest). split; [now constructor | exact K].
      * intros (y & H & K). inversion H; subst. now split.
  - simpl. rewrite IH1. split.
    + intros (y & H1 & H2). apply IH2 in H2 as (z & H2 & K).
      exists z. split; [econstructor; eassumption | exact K].
    + intros (z & H & K). inversion H; subst.
      eexists. split; [eassumption|]. apply IH2. now exists z.
  - simpl. rewrite orb_true_iff, IH1, IH2. split.
    + intros [(y & H & K)|(y & H & K)]; exists y; split; auto;
        [now apply matches_Alt_left | now apply matches_Alt_right].
    + intros (y & H & K). inversion H; subst; [left|right]; now exists y.
  - simpl.
    set (loop := fix loop (fuel : nat) (x : position) {struct fuel} : bool :=
           match fuel with
           | O => k x
           | S fuel' =>
               m r1 x (fun y =>
                         if Nat.ltb (List.length (snd y)) (List.length (snd x))
                         then loop fuel' y else false)
               || k x
           end).
    assert (L : forall fuel x, List.length (snd x) <= fuel ->
                (loop fuel x = true
                 <-> exists y, matches (Star r1) x y /\ k y = true)).
    { clear x. induction fuel as [|fuel IHf]; intros x Hlen; simpl.
      - split.
        + intros K. exists x. split; [constructor | exact K].
        + intros (y & H & K). inversion H; subst; [exact K | exfalso; unfold position, js_string in *; lia].
      - rewrite orb_true_iff, IH1. split.
        + intros [(y & H & K)|K].
          * cbv beta in K.
            match type of K with
            | (if ?c then _ else _) = _ => destruct c eqn:E; [|discriminate]
            end.
            apply Nat.ltb_lt in E. apply IHf in K as (z & Hz & K);
              [|unfold position, js_string in *; lia].
            exists z. split; [|exact K]. econstructor; eassumption.
          * exists x. split; [constructor | exact K].
        + intros (z & H & K). inversion H; subst; [now right|]. left.
          eexists. split; [eassumption|].
          match goal with
          | Hlt : _ < _ |- _ =>
              rewrite (proj2 (Nat.ltb_lt _ _) Hlt); apply IHf;
              [unfold position, js_string in *; lia|]
          end.
          now exists z. }
    apply L. apply Nat.le_refl.
  - destruct x as [[|i] rest]; simpl.
    + split.
      * intros K. eexists. split; [constructor | exact K].
      * intros (y & H & K). now inversion H; subst.
    + split; [discriminate|]. intros (y & H & _). inversion H.
  - destruct x as [i [|c rest]]; simpl.
    + split.
      * intros K. eexists. split; [constructor | exact K].
      * intros (y & H & K). now inversion H; subst.
    + split; [discriminate|]. intros (y & H & _). inversion H.
Qed.

(** A match consumes a word of the pattern's language. *)
Lemma matches_lang (r : t) (x y : position) :
  matches r x y -> anchor_free r = true ->
  exists w, snd x = w ++ snd y /\ fst y = fst x + List.length w /\ lang r w.
Proof.
  induction 1 as [x|p i c rest Hp|r1 r2 x y z _ IH1 _ IH2|r1 r2 x y _ IH
                 |r1 r2 x y _ IH|r x|r x y z _ IH1 Hlt _ IH2|rest|i];
    simpl; intros AF; try discriminate.
  - exists []. now rewrite Nat.add_0_r.
  - exists [c]. repeat split; [arith|]. now exists c.
  - apply andb_true_iff in AF as [AF1 AF2].
    destruct (IH1 AF1) as (u & Eu & Nu & Lu).
    destruct (IH2 AF2) as (v & Ev & Nv & Lv).
    exists (u ++ v). rewrite Eu, Ev, Nv, Nu, length_app, <- app_assoc.
    repeat split; [arith|]. now exists u, v.
  - apply andb_true_iff in AF as [AF1 _].
    destruct (IH AF1) as (w & E & Hn & L). exists w. auto.
  - apply andb_true_iff in AF as [_ AF2].
    destruct (IH AF2) as (w & E & Hn & L). exists w. auto.
  - exists []. rewrite Nat.add_0_r. repeat split. now exists [].
  - destruct (IH1 AF) as (u & Eu & Nu & Lu).
    destruct (IH2 AF) as (v & Ev & Nv & ws & -> & Lws).
    exists (u ++ List.concat ws).
    rewrite Eu, Ev, Nv, Nu, length_app, <- app_assoc.
    repeat split; [arith|]. exists (u :: ws). split; [reflexivity|].
    now constructor.
Qed.

(** A word of the language is matched at every position where it stands. *)
Lemma lang_matches (r : t) :
  anchor_free r = true ->
  forall (w : js_string), lang r w ->
  forall (i : nat) (rest : js_string),
    matches r (i, w ++ rest) (i + List.length w, rest).
Proof.
  induction r as [|p|r1 IH1 r2 IH2|r1 IH1 r2 IH2|r1 IH1| |]; simpl;
    intros AF w L i rest; try discriminate.
  - subst. simpl. rewrite Nat.add_0_r. constructor.
  - destruct L as (c & -> & Hp). simpl. rewrite Nat.add_1_r. now constructor.
  - apply andb_true_iff in AF as [AF1 AF2]. destruct L as (u & v & -> & Lu & Lv).
    rewrite <- app_assoc, length_app, Nat.add_assoc.
    econstructor; [apply IH1 | apply IH2]; assumption.
  - apply andb_true_iff in AF as [AF1 AF2].
    destruct L as [L|L];
      [apply matches_Alt_left; now apply IH1
      |apply matches_Alt_right; now apply IH2].
  - destruct L as (ws & -> & Lws). revert i.
    induction Lws as [|u ws Lu _ IHws]; intros i; simpl.
    + rewrite Nat.add_0_r. constructor.
    + destruct u as [|c u]; [apply IHws|].
      rewrite <- app_assoc, length_app, Nat.add_assoc.
      eapply matches_Star_more; [now apply IH1| |apply IHws].
      simpl. rewrite !length_app. simpl. arith.
Qed.

(** The test of an anchored pattern [^body$] whose body has no assertion
    succeeds exactly on the words of the body. *)
Lemma test_anchored (body : t) (s : js_string) :
  anchor_free body = true ->
  (test (Seq Bol (Seq body Eol)) s = true <-> lang body s).
Proof.
  intros AF. unfold test. rewrite existsb_exists. split.
  - intros (i & _ & H). unfold match_at in H.
    apply m_matches in H as (y & H & _).
    inversion H as [| |? ? ? y1 ? HB HR| | | | | |]; subst.
    inversion HB; subst.
    inversion HR as [| |? ? ? y2 ? Hbody HE| | | | | |]; subst.
    inversion HE; subst.
    destruct (matches_lang Hbody AF) as (w & E & _ & L).
    simpl in E. rewrite app_nil_r in E. now subst.
  - intros L. exists 0. split; [apply in_seq; arith|].
    unfold match_at. apply m_matches. simpl.
    exists (List.length s, []). split; [|reflexivity].
    econstructor; [constructor|]. econstructor; [|constructor].
    pose proof (lang_matches body AF s L 0 []) as M.
    now rewrite app_nil_r in M.
Qed.

(** The languages of the pieces that the two patterns are made of. *)
Lemma lang_Star_Class (p : N -> bool) (w : js_string) :
  lang (Star (Class p)) w <-> forallb p w = true.
Proof.
  simpl. split.
  - intros (ws & -> & H). induction H as [|u ws (c & -> & Hp) _ IH]; simpl;
      [reflexivity | now rewrite Hp].
  - intros H. exists (List.map (fun c => [c]) w). split.
    + induction w as [|c w IH]; simpl; [reflexivity|].
      simpl in H. apply andb_true_iff in H as [_ H]. now rewrite <- IH.
    + induction w as [|c w IH]; simpl; constructor;
        simpl in H; apply andb_true_iff in H as [Hc H]; [now exists c | auto].
Qed.

Lemma lang_Plus_Class (p : N -> bool) (w : js_string) :
  lang (Plus (Class p)) w <-> w <> [] /\ forallb p w = true.
Proof.
  unfold Plus. change (lang (Seq (Class p) (Star (Class p))) w)
    with (exists u v, w = u ++ v /\ lang (Class p) u /\ lang (Star (Class p)) v).
  split.
  - intros (u & v & -> & (c & -> & Hp) & Hv). apply lang_Star_Class in Hv.
    simpl. rewrite Hp, Hv. split; [discriminate | reflexivity].
  - intros [Hne H]. destruct w as [|c w]; [contradiction|].
    simpl in H. apply andb_true_iff in H as [Hc H].
    exists [c], w. repeat split; [now exists c | now apply lang_Star_Class].
Qed.

Lemma lit_true (a : ascii) (c : N) : lit a c = true <-> c = N_of_ascii a.
Proof. unfold lit. apply N.eqb_eq. Qed.

Lemma lang_lit (a : ascii) (w : js_string) :
  lang (Class (lit a)) w <-> w = [N_of_ascii a].
Proof.
  simpl. split.
  - intros (c & -> & H). apply lit_true in H. now subst.
  - intros ->. exists (N_of_ascii a). split; [reflexivity | now apply lit_true].
Qed.

Lemma lang_Seq (r1 r2 : t) (w : js_string) :
  lang (Seq r1 r2) w <-> exists u v, w = u ++ v /\ lang r1 u /\ lang r2 v.
Proof. reflexivity. Qed.

(** [r{2,4}] on a class. *)
Lemma lang_Range_2_4 (p : N -> bool) (w : js_string) :
  lang (Range 2 4 (Class p)) w
  <-> 2 <= List.length w <= 4 /\ forallb p w = true.
Proof.
  unfold Range. simpl. split.
  - intros (u1 & v1 & -> & (c1 & -> & H1) & u2 & v2 & -> & (c2 & -> & H2) & H).
    destruct H as [(u3 & v3 & -> & (c3 & -> & H3) & H)| ->].
    + destruct H as [(u4 & v4 & -> & (c4 & -> & H4) & ->)| ->]; simpl;
        rewrite ?H1, ?H2, ?H3, ?H4; split; (lia || reflexivity).
    + simpl. rewrite H1, H2. split; (lia || reflexivity).
  - intros [Hlen H].
    destruct w as [|c1 [|c2 w]]; simpl in Hlen; try lia.
    simpl in H. apply andb_true_iff in H as [H1 H].
    apply andb_true_iff in H as [H2 H].
    exists [c1], (c2 :: w). repeat split; [now exists c1|].
    exists [c2], w. repeat split; [now exists c2|].
    destruct w as [|c3 w]; [now right | left].
    simpl in H. apply andb_true_iff in H as [H3 H].
    exists [c3], w. repeat split; [now exists c3|].
    destruct w as [|c4 w]; [now right | left].
    simpl in H. apply andb_true_iff in H as [H4 H].
    exists [c4], w. repeat split; [now exists c4|].
    destruct w; [reflexivity | simpl in Hlen; lia].
Qed.

Lemma lang_label_dot (p : N -> bool) (u : js_string) :
  lang (Seq (Plus (Class p)) (Class (lit "."))) u
  <-> exists l, u = l ++ js "." /\ label_of p l.
Proof.
  rewrite lang_Seq. split.
  - intros (a & b & -> & Ha & Hb). apply lang_Plus_Class in Ha.
    apply lang_lit in Hb. subst. now exists a.
  - intros (l & -> & Hl). exists l, (js "."). repeat split.
    + now apply lang_Plus_Class.
    + now apply lang_lit.
Qed.

Lemma lang_labels (p : N -> bool) (ws : list js_string) :
  Forall (lang (Seq (Plus (Class p)) (Class (lit ".")))) ws
  <-> exists labels,
        ws = List.map (fun l => l ++ js ".") labels /\ Forall (label_of p) labels.
Proof.
  split.
  - induction 1 as [|u ws Hu _ (labels & -> & Hl)].
    + now exists [].
    + apply lang_label_dot in Hu as (l & -> & Hgood).
      exists (l :: labels). split; [reflexivity | now constructor].
  - intros (labels & -> & Hl). induction Hl as [|l labels Hgood _ IH]; simpl;
      constructor; [|exact IH].
    apply lang_label_dot. now exists l.
Qed.

Lemma lang_Plus_labels (p : N -> bool) (w : js_string) :
  lang (Plus (Seq (Plus (Class p)) (Class (lit ".")))) w
  <-> exists labels,
        labels <> [] /\ w = dotted labels /\ Forall (label_of p) labels.
Proof.
  unfold Plus at 1. rewrite lang_Seq. split.
  - intros (u & v & -> & Hu & ws & -> & Hws).
    apply lang_label_dot in Hu as (l & -> & Hgood).
    apply lang_labels in Hws as (labels & -> & Hl).
    exists (l :: labels). repeat split; [discriminate | now constructor].
  - intros (labels & Hne & -> & Hl).
    destruct Hl as [|l labels Hgood Hl]; [contradiction|].
    exists (l ++ js "."), (dotted labels). repeat split.
    + apply lang_label_dot. now exists l.
    + exists (List.map (fun l => l ++ js ".") labels). split; [reflexivity|].
      apply lang_labels. now exists labels.
Qed.

(** X1. The pattern of [avatarUri], [/^\S+\.jpg$/], accepts exactly the
    strings that are a non-empty name without white space followed by
    [.jpg]; in particular it rejects the empty string. *)
Theorem avatarUri_match_accepts_iff (s : js_string) :
  test UserEntity.avatarUri_match s = true
  <-> exists name,
        s = name ++ js ".jpg" /\ name <> [] /\ forallb nonspace name = true.
Proof.
  unfold UserEntity.avatarUri_match.
  rewrite test_anchored by reflexivity.
  unfold UserEntity.avatarUri_name. rewrite lang_Seq. split.
  - intros (name & v & -> & Hname & H). apply lang_Plus_Class in Hname.
    rewrite lang_Seq in H. destruct H as (d & v1 & -> & Hd & H).
    rewrite lang_Seq in H. destruct H as (j & v2 & -> & Hj & H).
    rewrite lang_Seq in H. destruct H as (p & g & -> & Hp & Hg).
    apply lang_lit in Hd, Hj, Hp, Hg. subst. now exists name.
  - intros (name & -> & Hname). exists name, (js ".jpg").
    repeat split; [now apply lang_Plus_Class|].
    exists (js "."), (js "jpg"). repeat split; [now apply lang_lit|].
    exists (js "j"), (js "pg"). repeat split; [now apply lang_lit|].
    exists (js "p"), (js "g"). repeat split; now apply lang_lit.
Qed.

(** The words of the group of the e-mail pattern. *)
Lemma lang_email_group (s : js_string) :
  lang UserEntity.email_group s
  <-> exists local labels tld,
        s = local ++ js "@" ++ dotted labels ++ tld
        /\ label_of UserEntity.email_local local
        /\ labels <> []
        /\ Forall (label_of UserEntity.email_label) labels
        /\ 2 <= List.length tld <= 4
        /\ forallb UserEntity.email_label tld = true.
Proof.
  unfold UserEntity.email_group. rewrite lang_Seq. split.
  - intros (local & v & -> & Hlocal & H).
    apply lang_Plus_Class in Hlocal.
    rewrite lang_Seq in H. destruct H as (a & v1 & -> & Ha & H).
    rewrite lang_Seq in H. destruct H as (d & tld & -> & Hd & Htld).
    apply lang_lit in Ha. apply lang_Plus_labels in Hd as (labels & Hne & -> & Hl).
    apply lang_Range_2_4 in Htld as [Hlen Htld]. subst.
    exists local, labels, tld. repeat split; tauto.
  - intros (local & labels & tld & -> & Hlocal & Hne & Hl & Hlen & Htld).
    exists local, (js "@" ++ dotted labels ++ tld).
    repeat split; [now apply lang_Plus_Class|].
    exists (js "@"), (dotted labels ++ tld).
    repeat split; [now apply lang_lit|].
    exists (dotted labels), tld. repeat split.
    + apply lang_Plus_labels. now exists labels.
    + now apply lang_Range_2_4.
Qed.

Lemma test_email_match (s : js_string) :
  test UserEntity.email_match s = true
  <-> s = [] \/ lang UserEntity.email_group s.
Proof.
  unfold UserEntity.email_match. rewrite test_anchored by reflexivity.
  simpl. tauto.
Qed.

(** X2. The pattern of [email] accepts exactly the empty string and the
    strings [local@label.label...tld]: a non-empty local part over
    [\w], [-], [\] and [.], an [@], one or more non-empty labels over [\w]
    and [-] each followed by a dot, and a last part of 2 to 4 code units
    over [\w] and [-]. *)
Theorem email_match_accepts_iff (s : js_string) :
  test UserEntity.email_match s = true
  <-> s = []
      \/ exists local labels tld,
           s = local ++ js "@" ++ dotted labels ++ tld
           /\ label_of UserEntity.email_local local
           /\ labels <> []
           /\ Forall (label_of UserEntity.email_label) labels
           /\ 2 <= List.length tld <= 4
           /\ forallb UserEntity.email_label tld = true.
Proof.
  rewrite test_email_match. now rewrite lang_email_group.
Qed.

Lemma count_occ_class (p : N -> bool) (w : js_string) (c : N) :
  forallb p w = true -> p c = false -> count_occ N.eq_dec w c = 0.
Proof.
  intros Hw Hc. induction w as [|x w IH]; simpl; [reflexivity|].
  simpl in Hw. apply andb_true_iff in Hw as [Hx Hw].
  destruct (N.eq_dec x c) as [->|_]; [congruence | now apply IH].
Qed.

Lemma forallb_weaken (p q : N -> bool) (w : js_string) :
  (forall c, p c = true -> q c = true) ->
  forallb p w = true -> forallb q w = true.
Proof.
  intros Hpq. induction w as [|x w IH]; simpl; [reflexivity|].
  intros H. apply andb_true_iff in H as [Hx Hw].
  now rewrite (Hpq x Hx), IH.
Qed.

Lemma email_label_local (c : N) :
  UserEntity.email_label c = true -> UserEntity.email_local c = true.
Proof.
  unfold UserEntity.email_label, UserEntity.email_local, union.
  destruct (word c); simpl; [reflexivity|]. now intros ->.
Qed.

Lemma dotted_labels (labels : list js_string) :
  Forall (label_of UserEntity.email_label) labels ->
  forallb UserEntity.email_local (dotted labels) = true
  /\ count_occ N.eq_dec (dotted labels) 64%N = 0.
Proof.
  induction 1 as [|l labels [_ Hl] _ [IHf IHc]]; [now split|].
  unfold dotted in *. simpl.
  rewrite !forallb_app, !count_occ_app, IHf, IHc.
  rewrite (forallb_weaken _ _ l email_label_local Hl).
  now rewrite (count_occ_class _ l 64%N Hl eq_refl).
Qed.

(** X18. A non-empty string that the e-mail pattern accepts contains the
    [@] exactly once, and apart from it only the code units of [\w], [-],
    [\] and [.]: no white space and nothing outside ASCII. *)
Theorem email_match_one_at (s : js_string) :
  test UserEntity.email_match s = true -> s <> [] ->
  count_occ N.eq_dec s 64%N = 1
  /\ forallb (union UserEntity.email_local (lit "@")) s = true.
Proof.
  intros H Hne. apply test_email_match in H as [->|H]; [contradiction|].
  apply lang_email_group in H
    as (local & labels & tld & -> & [_ Hlocal] & _ & Hl & _ & Htld).
  destruct (dotted_labels Hl) as [Hdf Hdc].
  assert (W : forall w, forallb UserEntity.email_local w = true ->
                        forallb (union UserEntity.email_local (lit "@")) w
                        = true).
  { intros w. apply forallb_weaken. intros c Hc. unfold union at 1.
    now rewrite Hc. }
  split.
  - rewrite !count_occ_app, Hdc.
    rewrite (count_occ_class _ local 64%N Hlocal eq_refl).
    now rewrite (count_occ_class _ tld 64%N Htld eq_refl).
  - rewrite !forallb_app, (W _ Hlocal), (W _ Hdf).
    now rewrite (W _ (forallb_weaken _ _ tld email_label_local Htld)).
Qed.
End Matcher.

(** ** The user entity and the user service over sequences of calls *)

Section UserServiceSequences.
Import UserService.

Variable createSHA256 : js_string -> js_string -> js_string.
Variable rejects : UserEntity.t -> list UserDocument -> option Exn.

Local Abbreviation create := (UserService.create createSHA256 rejects).
Local Abbreviation findOrCreate :=
  (UserService.findOrCreate createSHA256 rejects).
Local Abbreviation verifyUser := (UserService.verifyUser createSHA256).
Local Abbreviation after := (UserService.after createSHA256 rejects).
Local Abbreviation after_all := (UserService.after_all createSHA256 rejects).

(** The entity that [create] hands to the persistence layer. *)
Local Abbreviation hashed_entity dto salt :=
  {| UserEntity.email := User.email dto;
     UserEntity.avatarUri := User.avatarUri dto;
     UserEntity.name := User.name dto;
     UserEntity.password := createSHA256 (User.password dto) salt |}.

(** X3. [setPassword] followed by [verifyPassword] is a round trip: the
    password that was set verifies under the same salt, and any password
    and salt verify exactly when they hash to the stored value. *)
Theorem setPassword_verifyPassword
    (this this' : UserEntity.t) (password salt : js_string) :
  UserEntity.setPassword createSHA256 this password salt = Return this' ->
  UserEntity.verifyPassword createSHA256 this' password salt = true
  /\ forall password' salt',
       UserEntity.verifyPassword createSHA256 this' password' salt' = true
       <-> createSHA256 password' salt' = createSHA256 password salt.
Proof.
  intros H. apply setPassword_returns in H as [_ ->].
  unfold UserEntity.verifyPassword. simpl. split.
  - apply js_eqb_refl.
  - intros password' salt'. apply js_eqb_eq.
Qed.

(** The three ways in which [create] ends. *)
Lemma create_cases (dto : CreateUserDto) (salt : js_string) (w : World) :
  create dto salt w =
  if Nat.ltb (js_length (User.password dto)) 6
     || Nat.ltb 12 (js_length (User.password dto))
  then (Throw (Error msg_password_length), w)
  else match rejects (hashed_entity dto salt) (users w) with
       | Some e => (Throw e, called (CallCreate (hashed_entity dto salt)) w)
       | None =>
           (Return {| _id := UserService.next_id w;
                      entity := hashed_entity dto salt |},
            {| users := users w ++ [{| _id := UserService.next_id w;
                                        entity := hashed_entity dto salt |}];
               next_id := N.succ (UserService.next_id w);
               calls := calls w ++ [CallCreate (hashed_entity dto salt)];
               log := log w ++ [msg_user_created ++ User.email dto] |})
       end.
Proof.
  unfold UserService.create, bind, lift, UserEntity.setPassword.
  destruct (Nat.ltb (js_length (User.password dto)) 6
            || Nat.ltb 12 (js_length (User.password dto))) eqn:E;
    [reflexivity|].
  unfold userModel_create, UserEntity.new. simpl.
  now destruct (rejects _ (users w)).
Qed.

(** One call either leaves the collection and the log as they are, or stores
    one document with a hashed password and logs one line for it; a call
    other than [create] stores a document only for an e-mail that no stored
    user has. *)
Lemma after_cases (op : Operation) (w : World) :
  (users (after op w) = users w /\ log (after op w) = log w)
  \/ exists d dto salt,
       users (after op w) = users w ++ [d]
       /\ log (after op w) = log w ++ [msg_user_created ++ User.email dto]
       /\ entity d = hashed_entity dto salt
       /\ 6 <= js_length (User.password dto) <= 12
       /\ (is_create op = true
           \/ find (has_email (User.email dto)) (users w) = None).
Proof.
  assert (C : forall dto salt w0,
             users w0 = users w -> log w0 = log w ->
             (users (snd (create dto salt w0)) = users w
              /\ log (snd (create dto salt w0)) = log w)
             \/ exists d,
                  users (snd (create dto salt w0)) = users w ++ [d]
                  /\ log (snd (create dto salt w0))
                     = log w ++ [msg_user_created ++ User.email dto]
                  /\ entity d = hashed_entity dto salt
                  /\ 6 <= js_length (User.password dto) <= 12).
  { intros dto salt w0 Hu Hl. rewrite create_cases.
    destruct (Nat.ltb (js_length (User.password dto)) 6) eqn:E1;
      destruct (Nat.ltb 12 (js_length (User.password dto))) eqn:E2; simpl;
      try (left; now split).
    destruct (rejects _ (users w0)); simpl; [left; now split|].
    right. eexists. rewrite Hu, Hl. repeat split.
    - apply Nat.ltb_ge in E1. exact E1.
    - apply Nat.ltb_ge in E2. exact E2. }
  destruct op as [dto salt|email|dto salt|dto salt]; simpl.
  - destruct (C dto salt w eq_refl eq_refl) as [H|(d & Hu & Hl & He & Hlen)];
      [now left | right].
    exists d, dto, salt. repeat split; solve [tauto | now left].
  - left. now split.
  - rewrite findOrCreate_unfold.
    destruct (find (has_email (User.email dto)) (users w)) eqn:Efind;
      [left; now split|].
    destruct (C dto salt (called (CallFindOne (User.email dto)) w)
                eq_refl eq_refl) as [H|(d & Hu & Hl & He & Hlen)];
      [now left | right].
    exists d, dto, salt. repeat split; solve [tauto | now right].
  - left. unfold UserService.verifyUser, findByEmail, userModel_findOne, bind.
    destruct (find _ (users w)) as [u|]; simpl; [|now split].
    now destruct (negb _).
Qed.

Lemma find_app_some {A} (f : A -> bool) (l l' : list A) (x : A) :
  find f l = Some x -> find f (l ++ l') = Some x.
Proof.
  induction l as [|y l IH]; simpl; [discriminate|].
  now destruct (f y).
Qed.

Lemma after_all_users (ops : list Operation) (w : World) :
  exists added, users (after_all ops w) = users w ++ added.
Proof.
  revert w. induction ops as [|op ops IH]; intros w; simpl.
  - exists []. now rewrite app_nil_r.
  - destruct (IH (after op w)) as (added & ->).
    destruct (after_cases op w) as [[-> _]|(d & _ & _ & -> & _)].
    + now exists added.
    + exists (d :: added). now rewrite <- app_assoc.
Qed.

(** X4. No call on the service removes or changes a stored user: after any
    sequence of calls the collection is the old one followed by the
    documents stored since, so that a lookup that found a user keeps
    finding that user. *)
Theorem users_only_appended (ops : list Operation) (w : World) :
  (exists added, users (after_all ops w) = users w ++ added)
  /\ forall email u,
       find (has_email email) (users w) = Some u ->
       find (has_email email) (users (after_all ops w)) = Some u.
Proof.
  destruct (after_all_users ops w) as (added & E). split.
  - now exists added.
  - intros email u H. rewrite E. now apply find_app_some.
Qed.

(** X5. Every password that the service has stored is a salted hash of a
    password of 6 to 12 code units: starting from an empty collection, this
    holds after any sequence of calls. *)
Theorem stored_passwords_are_hashes (ops : list Operation) :
  Forall (fun d => exists password salt,
                     UserEntity.getPassword (entity d)
                     = createSHA256 password salt
                     /\ 6 <= js_length password <= 12)
    (users (after_all ops fresh)).
Proof.
  assert (G : forall ops w,
             Forall (fun d => exists password salt,
                                UserEntity.getPassword (entity d)
                                = createSHA256 password salt
                                /\ 6 <= js_length password <= 12) (users w) ->
             Forall (fun d => exists password salt,
                                UserEntity.getPassword (entity d)
                                = createSHA256 password salt
                                /\ 6 <= js_length password <= 12)
               (users (after_all ops w))).
  { clear ops. induction ops as [|op ops IH]; intros w H; simpl; [exact H|].
    apply IH.
    destruct (after_cases op w) as [[-> _]|(d & dto & salt & -> & _ & He & Hlen & _)];
      [exact H|].
    apply Forall_app. split; [exact H|]. constructor; [|constructor].
    exists (User.password dto), salt. now rewrite He. }
  apply G. constructor.
Qed.

(** X6. The log mirrors the collection: starting from a world in which
    nothing has happened, after any sequence of calls the logged lines are
    the creation messages of the stored users, in order; a call that throws
    logs nothing. *)
Theorem log_lists_stored_users (ops : list Operation) :
  log (after_all ops fresh)
  = List.map (fun d => msg_user_created ++ UserEntity.email (entity d))
      (users (after_all ops fresh)).
Proof.
  assert (G : forall ops w,
             log w = List.map (fun d => msg_user_created
                                        ++ UserEntity.email (entity d))
                       (users w) ->
             log (after_all ops w)
             = List.map (fun d => msg_user_created
                                  ++ UserEntity.email (entity d))
                 (users (after_all ops w))).
  { clear ops. induction ops as [|op ops IH]; intros w H; simpl; [exact H|].
    apply IH.
    destruct (after_cases op w)
      as [[-> ->]|(d & dto & salt & -> & -> & He & _)]; [exact H|].
    rewrite map_app, H. simpl. now rewrite He. }
  now apply G.
Qed.

(** X7. A registered user can log in, then and later: when [create] has
    stored a user under an e-mail that no earlier user had, [verifyUser] with
    the e-mail, the password and the salt of the registration returns that
    user after any further sequence of calls. *)
Theorem registered_user_logs_in
    (dto : CreateUserDto) (salt : js_string) (w w' : World)
    (d : UserDocument) (ops : list Operation) :
  find (has_email (User.email dto)) (users w) = None ->
  create dto salt w = (Return d, w') ->
  fst (verifyUser (login_of dto) salt (after_all ops w')) = Return (Some d).
Proof.
  intros Hnone H. apply create_returns in H as (_ & He & _ & _ & Hu & _).
  destruct (after_all_users ops w') as (added & Hadded).
  assert (F : find (has_email (User.email dto)) (users (after_all ops w'))
              = Some d).
  { rewrite Hadded, Hu. apply find_app_some. apply find_app_none;
      [exact Hnone|].
    unfold has_email. rewrite He. simpl. apply js_eqb_refl. }
  unfold UserService.verifyUser, findByEmail, userModel_findOne, bind,
    login_of. simpl. rewrite F. simpl.
  unfold UserEntity.verifyPassword. rewrite He. simpl.
  now rewrite js_eqb_refl.
Qed.

(** X8. As long as users are stored through [findOrCreate] only, no two
    stored users share an e-mail: a sequence of calls without a direct
    [create] keeps the e-mails of the collection pairwise distinct. *)
Theorem findOrCreate_keeps_emails_distinct
    (ops : list Operation) (w : World) :
  forallb (fun op => negb (is_create op)) ops = true ->
  NoDup (List.map (fun d => UserEntity.email (entity d)) (users w)) ->
  NoDup (List.map (fun d => UserEntity.email (entity d))
           (users (after_all ops w))).
Proof.
  revert w. induction ops as [|op ops IH]; intros w Hops Hw; simpl;
    [exact Hw|].
  simpl in Hops. apply andb_true_iff in Hops as [Hop Hops].
  apply IH; [exact Hops|].
  destruct (after_cases op w)
    as [[-> _]|(d & dto & salt & -> & _ & He & _ & [Hc|Hnone])];
    [exact Hw | rewrite Hc in Hop; discriminate |].
  rewrite map_app. simpl. apply NoDup_app; [exact Hw | repeat constructor; intros [] |].
  intros e Hin [<-|[]]. rewrite He in Hin. simpl in Hin.
  apply in_map_iff in Hin as (u & Hu & Hin).
  apply (proj1 (find_none_iff _ _) Hnone) in Hin.
  unfold has_email in Hin. rewrite Hu, js_eqb_refl in Hin. discriminate.
Qed.
End UserServiceSequences.

(** ** The route table as a whole *)

Section RouteTable.
Variables Store Doc : Type.
Variable isValidObjectId : js_string -> bool.
Variable satisfies : DtoClass -> Doc -> bool.
Variable decode : js_string -> option js_string.
Variable expose : ResponseClass -> Doc -> Doc.
Variables with_rating with_rating_0 : Doc -> Doc.
Variable movieId : Doc -> js_string.

Local Abbreviation route :=
  (@serve Store Doc isValidObjectId satisfies decode expose with_rating
     with_rating_0 movieId).

Implicit Types (this : MovieController Store Doc) (req : Request Doc)
  (st : Store).

(** A property of the outcomes of the eleven registered routes, and of the
    requests that no route takes, holds of the outcome of every request. *)
Lemma route_cases this req st
    (P : HttpMethod -> js_string -> Outcome Doc * Store -> Prop) :
  (forall method0 path0,
      route this method0 path0 req st = (Unhandled, st) ->
      P method0 path0 (Unhandled, st)) ->
  P Get (js "/") (route this Get (js "/") req st) ->
  P Post (js "/") (route this Post (js "/") req st) ->
  P Get (js "/promo") (route this Get (js "/promo") req st) ->
  P Get (js "/to-watch") (route this Get (js "/to-watch") req st) ->
  P Post (js "/to-watch") (route this Post (js "/to-watch") req st) ->
  P Delete (js "/to-watch") (route this Delete (js "/to-watch") req st) ->
  P Get (js "/:id/comments") (route this Get (js "/:id/comments") req st) ->
  P Post (js "/:id/comments") (route this Post (js "/:id/comments") req st) ->
  P Get (js "/:id") (route this Get (js "/:id") req st) ->
  P Put (js "/:id") (route this Put (js "/:id") req st) ->
  P Delete (js "/:id") (route this Delete (js "/:id") req st) ->
  forall method0 path0, P method0 path0 (route this method0 path0 req st).
Proof.
  intros HU H1 H2 H3 H4 H5 H6 H7 H8 H9 H10 H11 method0 path0.
  destruct (js_eqb (js "/") path0) eqn:E1;
    [apply js_eqb_eq in E1; subst path0; destruct method0;
     solve [assumption | apply HU; reflexivity]|].
  destruct (js_eqb (js "/promo") path0) eqn:E2;
    [apply js_eqb_eq in E2; subst path0; destruct method0;
     solve [assumption | apply HU; reflexivity]|].
  destruct (js_eqb (js "/to-watch") path0) eqn:E3;
    [apply js_eqb_eq in E3; subst path0; destruct method0;
     solve [assumption | apply HU; reflexivity]|].
  destruct (js_eqb (js "/:id/comments") path0) eqn:E4;
    [apply js_eqb_eq in E4; subst path0; destruct method0;
     solve [assumption | apply HU; reflexivity]|].
  destruct (js_eqb (js "/:id") path0) eqn:E5;
    [apply js_eqb_eq in E5; subst path0; destruct method0;
     solve [assumption | apply HU; reflexivity]|].
  assert (E : route this method0 path0 req st = (Unhandled, st)).
  { unfold serve, dispatch. cbn -[js_eqb js].
    rewrite E1, E2, E3, E4, E5. now rewrite !andb_false_r. }
  rewrite E. now apply HU.
Qed.

(** Case analysis along a chain: on what the middlewares test and on what
    the services return. *)
Local Ltac along_chain :=
  cbn;
  unfold getAll, getById, getPromo, create, update, deleteById,
    getToWatchList, addToToWatchList, deleteFromToWatchList, getComments,
    createComment, bind, reads, writes, updates, req_user_id, ret, throw;
  cbn;
  repeat (match goal with
          | |- context [match authorization ?r with _ => _ end] =>
              destruct (authorization r) eqn:?
          | |- context [match decode ?c with _ => _ end] =>
              destruct (decode c) eqn:?
          | |- context [if isValidObjectId ?x then _ else _] =>
              destruct (isValidObjectId x) eqn:?
          | |- context [if satisfies ?d ?b then _ else _] =>
              destruct (satisfies d b) eqn:?
          | |- context [if movie_exists ?s ?i ?st then _ else _] =>
              destruct (movie_exists s i st) eqn:?
          | |- context [match movie_findById ?s ?i ?st with _ => _ end] =>
              destruct (movie_findById s i st) eqn:?
          | |- context [movie_create ?s ?u ?b ?st] =>
              destruct (movie_create s u b st) eqn:?
          | |- context [movie_update ?s ?i ?u ?b ?st] =>
              destruct (movie_update s i u b st) as [[?|] ?] eqn:?
          | |- context [comment_create ?s ?i ?u ?b ?st] =>
              destruct (comment_create s i u b st) as [[?|] ?] eqn:?
          | |- context [match query_genre ?r with _ => _ end] =>
              destruct (query_genre r) as [[|? ?]|] eqn:?
          end; cbn).

(** X9. Whatever the request, the controller answers with one of the status
    codes 200, 201, 204, 400, 401, 404 and 500, or no route takes the
    request; the 500 is the answer of [GET /promo] and of no other route: no
    other handler throws anything but a 404 [HttpError], and none reads
    [req.user.id] on a request that the authorization middleware has not
    extended. *)
Theorem responses_have_known_status this req st method0 path0 :
  In (response_status (fst (route this method0 path0 req st)))
    [None; Some 200; Some 201; Some 204; Some 400; Some 401; Some 404;
     Some 500]%N
  /\ (response_status (fst (route this method0 path0 req st)) = Some 500%N
      <-> method0 = Get /\ path0 = js "/promo").
Proof.
  apply (@route_cases this req st
           (fun method1 path1 o =>
              In (response_status (fst o))
                [None; Some 200; Some 201; Some 204; Some 400; Some 401;
                 Some 404; Some 500]%N
              /\ (response_status (fst o) = Some 500%N
                  <-> method1 = Get /\ path1 = js "/promo")));
    [intros method1 path1 E; split; [simpl; tauto|];
     split; [discriminate|]; intros [-> ->]; cbn in E; discriminate E
    | along_chain;
      (split; [simpl; tauto|]);
      (split;
       [first [discriminate | intros _; now split]
       |intros [Hm Hp]; first [reflexivity | discriminate Hm
                              | cbv in Hp; discriminate Hp]]) ..].
Qed.

(** X10. A request that carries no credential, or one that does not decode,
    changes nothing through a route of a method other than GET: it is
    answered 401 (or no route takes it) and the store is left as it is. *)
Theorem unauthorized_write_changes_nothing this req st method0 path0 :
  method0 <> Get ->
  match authorization req with
  | Some credential => decode credential
  | None => None
  end = None ->
  snd (route this method0 path0 req st) = st
  /\ (fst (route this method0 path0 req st) = Stopped 401%N
      \/ fst (route this method0 path0 req st) = Unhandled).
Proof.
  intros Hmethod Hcred. revert Hmethod.
  apply (@route_cases this req st
           (fun method1 _ o => method1 <> Get ->
                               snd o = st
                               /\ (fst o = Stopped 401%N \/ fst o = Unhandled)));
    try (intros; congruence); try (intros; split; [reflexivity | now right]);
    intros _; cbn;
    destruct (authorization req) as [credential|];
    try rewrite Hcred; cbn; (split; [reflexivity | now left]).
Qed.

(** X11. [PUT /:id] of an authorized request with a well-formed id, a valid
    body and an existing movie answers 201 Created with the updated movie
    when the service returns one, and throws the 404 [HttpError] when the
    service returns [null]; in both cases the store is the one that the
    service left. *)
Theorem put_id_answers_created this req st (credential id : js_string) :
  authorization req = Some credential ->
  decode credential = Some id ->
  isValidObjectId (params_id req) = true ->
  satisfies UpdateMovieDto (body req) = true ->
  movie_exists (movieService this) (params_id req) st = true ->
  route this Put (js "/:id") req st
  = match movie_update (movieService this) (params_id req) id (body req) st
    with
    | (Some result, st') =>
        (Sent {| type := Some (js "application/json");
                 status := 201;
                 sent := Some (One (expose MovieResponse
                                      (with_rating result))) |}, st')
    | (None, st') =>
        (Raised (HttpError 404 msg_movie_not_found (js "MovieController")),
         st')
    end.
Proof.
  intros Ha Hd Hid Hdto Hex. cbn. rewrite Ha. cbn. rewrite Hd. cbn.
  rewrite Hid. cbn. rewrite Hdto. cbn. rewrite Hex.
  unfold update, bind, req_user_id, writes, ret, throw. cbn.
  now destruct (movie_update _ _ _ _ st) as [[result|] st'].
Qed.

(** X12. [DELETE /:id] of an authorized request with a well-formed id of an
    existing movie answers 204 and leaves the store that [deleteById] of the
    service gives, whoever the authorized user is: the user is not passed to
    the service. *)
Theorem delete_id_ignores_user this req st (credential id : js_string) :
  authorization req = Some credential ->
  decode credential = Some id ->
  isValidObjectId (params_id req) = true ->
  movie_exists (movieService this) (params_id req) st = true ->
  route this Delete (js "/:id") req st
  = (Sent noContent,
     movie_deleteById (movieService this) (params_id req) st).
Proof.
  intros Ha Hd Hid Hex. cbn. rewrite Ha. cbn. rewrite Hd. cbn.
  rewrite Hid. cbn. now rewrite Hex.
Qed.


(** X14. [GET /] with an empty [genre] in the query is served like a request
    without [genre]: the answer is 200 with all movies up to the limit, and
    the genre filter of the service is used only for a non-empty genre. *)
Theorem get_all_empty_genre this req st :
  query_genre req = Some [] \/ query_genre req = None ->
  route this Get (js "/") req st
  = (Sent {| type := Some (js "application/json");
             status := 200;
             sent := Some (Many (List.map (expose MovieListItemResponse)
                                   (movie_getAll (movieService this)
                                      (query_limit req) st))) |}, st).
Proof.
  intros [H|H]; cbn; unfold getAll, bind, reads, ret; now rewrite H.
Qed.

(** X15. [POST /:id/comments] of an authorized request with a well-formed
    id, a valid body and an existing movie answers 201 Created with the
    comment that the service returns, and throws the 404 [HttpError]
    'comment not found' of the controller when the service returns [null];
    the store is the one that the service left. *)
Theorem post_comments_existing_movie this req st
    (credential id : js_string) :
  authorization req = Some credential ->
  decode credential = Some id ->
  isValidObjectId (params_id req) = true ->
  satisfies CreateCommentDto (body req) = true ->
  movie_exists (movieService this) (params_id req) st = true ->
  route this Post (js "/:id/comments") req st
  = match comment_create (commentService this) (params_id req) id
            (body req) st
    with
    | (Some comment, st') =>
        (Sent {| type := Some (js "application/json");
                 status := 201;
                 sent := Some (One (expose CommentResponse comment)) |}, st')
    | (None, st') =>
        (Raised (HttpError 404 msg_comment_not_found (js "MovieController")),
         st')
    end.
Proof.
  intros Ha Hd Hid Hdto Hex. cbn. rewrite Ha. cbn. rewrite Hd. cbn.
  rewrite Hid. cbn. rewrite Hdto. cbn. rewrite Hex.
  unfold createComment, bind, req_user_id, writes, ret, throw. cbn.
  now destruct (comment_create _ _ _ _ st) as [[comment|] st'].
Qed.
End RouteTable.

(** ** Registration of routes *)

Section Registration.
Variables Store Doc This : Type.

Implicit Types (c : Controller Store Doc) (req : Request Doc) (st : Store)
  (route : RouteInterface Store Doc This).

(** The function with which [dispatch] looks a layer up. *)
Local Abbreviation registered_for method0 path0 :=
  (fun l : Layer Store Doc =>
     HttpMethod_eqb (layer_method l) method0 && js_eqb (layer_path l) path0).

(** The middlewares of a route, none when the property is left out. *)
Local Abbreviation middlewares_of route :=
  (match middlewares route with
   | Some l => l
   | None => []
   end).

Lemma find_snoc {A} (f : A -> bool) (l : list A) (x : A) :
  find f (l ++ [x])
  = match find f l with
    | Some y => Some y
    | None => if f x then Some x else None
    end.
Proof.
  induction l as [|y l IH]; simpl; [reflexivity|].
  now destruct (f y).
Qed.

Lemma HttpMethod_eqb_refl (method0 : HttpMethod) :
  HttpMethod_eqb method0 method0 = true.
Proof. now destruct method0. Qed.

(** X16. [addRoute] registers behind what is registered: a method and path
    that had a layer keep being served by it, a request for the new route's
    method and path that had none goes through the route's middlewares in
    their order and then the bound handler, and one line is logged. *)
Theorem addRoute_registers_last (self : This) route c
    (method0 : HttpMethod) (path0 : js_string) req st :
  (find (registered_for method0 path0) (_router c) <> None ->
   dispatch (addRoute self route c) method0 path0 req st
   = dispatch c method0 path0 req st)
  /\ (find (registered_for method0 path0) (_router c) = None ->
      method route = method0 -> path route = path0 ->
      dispatch (addRoute self route c) method0 path0 req st
      = run (List.map (@MiddlewareStep Store Doc) (middlewares_of route)
             ++ [HandlerStep (handler route self)]) req st)
  /\ logged (addRoute self route c)
     = logged c ++ [msg_route_added ++ toUpperCase (method route) ++ js " "
                    ++ path route].
Proof.
  unfold dispatch, addRoute. repeat split.
  - intros Hsome. destruct (middlewares route); simpl; rewrite find_snoc;
      destruct (find _ (_router c)); congruence.
  - intros Hnone <- <-.
    destruct (middlewares route); simpl; rewrite find_snoc, Hnone; simpl;
      now rewrite HttpMethod_eqb_refl, js_eqb_refl.
  - now destruct (middlewares route).
Qed.

End Registration.

(** ** Further runs on the sample data *)

Section MoreRuns.
Import Reference Samples.

Lemma email_match_one_at_witness :
  RegExp.test UserEntity.email_match (js "keks@academy.ru") = true
  /\ js "keks@academy.ru" <> []
  /\ count_occ N.eq_dec (js "keks@academy.ru") 64%N = 1
  /\ forallb (RegExp.union UserEntity.email_local (RegExp.lit "@"))
       (js "keks@academy.ru") = true.
Proof.
  assert (H1 : RegExp.test UserEntity.email_match (js "keks@academy.ru") = true)
    by reflexivity.
  assert (H2 : js "keks@academy.ru" <> []) by discriminate.
  split; [exact H1|]. split; [exact H2|].
  exact (email_match_one_at H1 H2).
Defined.

Lemma setPassword_verifyPassword_witness :
  UserEntity.setPassword digest (UserEntity.new keks) (js "qwerty12") salt
  = Return (UserService.entity keks_document)
  /\ UserEntity.verifyPassword digest (UserService.entity keks_document)
       (js "qwerty12") salt = true.
Proof.
  split; [reflexivity|].
  exact (proj1 (setPassword_verifyPassword digest (UserEntity.new keks)
                  (this' := UserService.entity keks_document)
                  (js "qwerty12") salt eq_refl)).
Defined.

Lemma users_only_appended_witness :
  find (UserService.has_email (js "keks@academy.ru"))
    (UserService.users registered) = Some keks_document
  /\ find (UserService.has_email (js "keks@academy.ru"))
       (UserService.users
          (UserService.after_all digest unique_email session registered))
     = Some keks_document.
Proof.
  split; [reflexivity|].
  apply (proj2 (users_only_appended digest unique_email session registered)).
  reflexivity.
Defined.

Lemma registered_user_logs_in_witness :
  find (UserService.has_email (User.email keks)) (UserService.users nobody)
  = None
  /\ UserService.create digest unique_email keks salt nobody
     = (Return keks_document,
        snd (UserService.create digest unique_email keks salt nobody))
  /\ fst (UserService.verifyUser digest (UserService.login_of keks) salt
            (UserService.after_all digest unique_email session
               (snd (UserService.create digest unique_email keks salt
                       nobody))))
     = Return (Some keks_document).
Proof.
  split; [reflexivity|]. split; [reflexivity|].
  apply (registered_user_logs_in digest unique_email keks salt nobody
           (w' := snd (UserService.create digest unique_email keks salt
                         nobody))
           (d := keks_document) session);
    reflexivity.
Defined.

Lemma findOrCreate_keeps_emails_distinct_witness :
  forallb (fun op => negb (UserService.is_create op)) session = true
  /\ NoDup (List.map (fun d => UserEntity.email (UserService.entity d))
              (UserService.users nobody))
  /\ NoDup (List.map (fun d => UserEntity.email (UserService.entity d))
              (UserService.users
                 (UserService.after_all digest unique_email session nobody))).
Proof.
  assert (H : NoDup (List.map (fun d => UserEntity.email (UserService.entity d))
                       (UserService.users nobody))) by constructor.
  split; [reflexivity|]. split; [exact H|].
  exact (findOrCreate_keeps_emails_distinct digest unique_email session nobody
           eq_refl H).
Defined.

Lemma unauthorized_write_changes_nothing_witness :
  Delete <> Get
  /\ match authorization (request alien None []) with
     | Some credential => decode credential
     | None => None
     end = None
  /\ handle Delete (js "/:id") (request alien None []) catalogue
     = (Stopped 401%N, catalogue).
Proof.
  assert (H1 : Delete <> Get) by discriminate.
  split; [exact H1|]. split; [reflexivity|].
  destruct (unauthorized_write_changes_nothing isValidObjectId satisfies
              decode expose with_rating with_rating_0 movieId controller
              (request alien None []) catalogue (js "/:id") H1 eq_refl)
    as [_ _].
  reflexivity.
Defined.

Lemma put_id_answers_created_witness :
  authorization rename_alien = Some (js "Bearer keks")
  /\ decode (js "Bearer keks") = Some (js "keks")
  /\ isValidObjectId (params_id rename_alien) = true
  /\ satisfies UpdateMovieDto (body rename_alien) = true
  /\ movie_exists MovieService (params_id rename_alien) catalogue = true
  /\ response_status (fst (handle Put (js "/:id") rename_alien catalogue))
     = Some 201%N.
Proof.
  repeat (split; [reflexivity|]).
  unfold handle.
  rewrite (put_id_answers_created isValidObjectId satisfies decode expose
             with_rating with_rating_0 movieId controller rename_alien
             catalogue (credential := js "Bearer keks") (id := js "keks")
             eq_refl eq_refl eq_refl eq_refl eq_refl).
  reflexivity.
Defined.

Lemma delete_id_ignores_user_witness :
  authorization (request alien bearer_keks []) = Some (js "Bearer keks")
  /\ decode (js "Bearer keks") = Some (js "keks")
  /\ isValidObjectId alien = true
  /\ movie_exists MovieService alien catalogue = true
  /\ handle Delete (js "/:id") (request alien bearer_keks []) catalogue
     = (Sent noContent, movie_deleteById MovieService alien catalogue).
Proof.
  repeat (split; [reflexivity|]).
  apply (delete_id_ignores_user isValidObjectId satisfies decode expose
           with_rating with_rating_0 movieId controller
           (request alien bearer_keks []) catalogue
           (credential := js "Bearer keks") (id := js "keks"));
    reflexivity.
Defined.

Lemma get_all_empty_genre_witness :
  query_genre (request [] None []) = None
  /\ response_status (fst (handle Get (js "/") (request [] None []) catalogue))
     = Some 200%N.
Proof.
  split; [reflexivity|]. unfold handle.
  rewrite (get_all_empty_genre isValidObjectId satisfies decode expose
             with_rating with_rating_0 movieId controller
             (request [] None []) catalogue (or_intror eq_refl)).
  reflexivity.
Defined.

Lemma post_comments_existing_movie_witness :
  authorization praise_alien = Some (js "Bearer keks")
  /\ decode (js "Bearer keks") = Some (js "keks")
  /\ isValidObjectId (params_id praise_alien) = true
  /\ satisfies CreateCommentDto (body praise_alien) = true
  /\ movie_exists MovieService (params_id praise_alien) catalogue = true
  /\ response_status
       (fst (handle Post (js "/:id/comments") praise_alien catalogue))
     = Some 201%N.
Proof.
  repeat (split; [reflexivity|]).
  unfold handle.
  rewrite (post_comments_existing_movie isValidObjectId satisfies decode
             expose with_rating with_rating_0 movieId controller praise_alien
             catalogue (credential := js "Bearer keks") (id := js "keks")
             eq_refl eq_refl eq_refl eq_refl eq_refl).
  reflexivity.
Defined.

Lemma addRoute_registers_last_witness :
  find (fun l : Layer Store Plain =>
          HttpMethod_eqb (layer_method l) Get
          && js_eqb (layer_path l) (js "/promo"))
    (_router (Controller_new Store Plain)) = None
  /\ dispatch (addRoute controller promo_route (Controller_new Store Plain))
       Get (js "/promo") (request [] None []) catalogue
     = run [HandlerStep (getPromo expose with_rating controller)]
         (request [] None []) catalogue.
Proof.
  split; [reflexivity|].
  apply (proj1 (proj2 (addRoute_registers_last controller promo_route
                         (Controller_new Store Plain) Get (js "/promo")
                         (request [] None []) catalogue)));
    reflexivity.
Defined.

End MoreRuns.
